(** * Session coordination and lifecycle engine: a shallow embedding

    The development follows the JavaScript sources module by module:
    - [UserData]       : src/utils/userData.js   (the quota store)
    - [LlmClient]      : src/llm/client.js       (batched commentary)
    - [MediaFetcher]   : src/media/fetcher.js    (tag-indexed batch fetch)
    - [Session]        : src/sessions/Session.js (the per-user state machine)
    - [SessionManager] : src/sessions/SessionManager.js (the coordinator)

    Conventions.  JavaScript numbers that hold timestamps, minutes and
    counters are integers in [Z].  [Map]s and plain objects used as maps are
    [gmap]s, [Set]s are [gset]s, arrays are lists.  Every [await] is a
    boundary at which the outcome of the external call (Redis, the content
    sources, the generative service, the chat platform) enters the model as an
    explicit argument; calls that the source fires without awaiting are
    recorded in an event trace. *)

From Stdlib Require Import ZArith Lia List Bool Ascii.
From stdpp Require Import gmap strings list fin_maps.

Import ListNotations.

(** ** Quota store: src/utils/userData.js *)

Module UserData.

Local Open Scope Z_scope.

Definition DEFAULT_STARTING_TIME : Z := 20.

(** The object handed to callers: every field present. *)
Record userData := mkUserData {
  remainingMinutes : Z;
  isPremium : bool;
  personalizationNotes : string;
  llmProfileSummary : string
}.

(** The JSON document as stored: older documents may lack fields, which
    [getUserDataInternal] back-fills with [??]. *)
Record storedData := mkStored {
  st_remainingMinutes : option Z;
  st_isPremium : option bool;
  st_personalizationNotes : option string;
  st_llmProfileSummary : option string
}.

(** The [user_data:] key space of Redis, keyed by user id. *)
Abbreviation store := (gmap string storedData).

Definition defaultData : userData :=
  mkUserData DEFAULT_STARTING_TIME false EmptyString EmptyString.

(** [JSON.parse] followed by the four [??] lines. *)
Definition backfill (j : storedData) : userData :=
  mkUserData (default DEFAULT_STARTING_TIME (st_remainingMinutes j))
             (default false (st_isPremium j))
             (default EmptyString (st_personalizationNotes j))
             (default EmptyString (st_llmProfileSummary j)).

(** [JSON.stringify] of a full object. *)
Definition stringify (d : userData) : storedData :=
  mkStored (Some (remainingMinutes d)) (Some (isPremium d))
           (Some (personalizationNotes d)) (Some (llmProfileSummary d)).

(** Which of the Redis calls of one operation throw. *)
Record faults := mkFaults {
  get_throws : bool;       (* redisClient.get in getUserDataInternal *)
  init_set_throws : bool;  (* redisClient.set of the default document *)
  save_throws : bool       (* redisClient.set in saveUserDataInternal *)
}.

Definition no_faults : faults := mkFaults false false false.

Definition getUserDataInternal (f : faults) (userId : string) (db : store)
  : userData * store :=
  if get_throws f then (defaultData, db)
  else match db !! userId with
       | Some j => (backfill j, db)
       | None =>
           if init_set_throws f then (defaultData, db)
           else (defaultData, <[userId := stringify defaultData]> db)
       end.

Definition saveUserDataInternal (f : faults) (userId : string) (d : userData)
                                (db : store) : store :=
  if save_throws f then db else <[userId := stringify d]> db.

Definition getUserTime (f : faults) (userId : string) (db : store) : Z * store :=
  let '(d, db1) := getUserDataInternal f userId db in
  (remainingMinutes d, db1).

Definition getUserPremiumStatus (f : faults) (userId : string) (db : store)
  : bool * store :=
  let '(d, db1) := getUserDataInternal f userId db in
  (isPremium d, db1).

Definition with_remaining (d : userData) (m : Z) : userData :=
  mkUserData m (isPremium d) (personalizationNotes d) (llmProfileSummary d).

Definition updateUserTime (f : faults) (userId : string) (minutesUsed : Z)
                          (db : store) : store :=
  let '(d, db1) := getUserDataInternal f userId db in
  let newTime := Z.max 0 (remainingMinutes d - minutesUsed) in
  saveUserDataInternal f userId (with_remaining d newTime) db1.

Definition setUserTime (f : faults) (userId : string) (minutes : Z)
                       (db : store) : store :=
  let '(d, db1) := getUserDataInternal f userId db in
  let timeToSet := Z.max 0 minutes in
  saveUserDataInternal f userId (with_remaining d timeToSet) db1.

Definition addUserTime (f : faults) (userId : string) (minutesToAdd : Z)
                       (db : store) : store :=
  let '(d, db1) := getUserDataInternal f userId db in
  let timeToAdd := Z.max 0 minutesToAdd in
  saveUserDataInternal f userId
    (with_remaining d (remainingMinutes d + timeToAdd)) db1.

(** The three time mutations of the public API. *)
Inductive mutation :=
| Update (minutesUsed : Z)
| SetTime (minutes : Z)
| AddTime (minutesToAdd : Z).

Definition apply_mutation (f : faults) (userId : string) (m : mutation)
                          (db : store) : store :=
  match m with
  | Update n => updateUserTime f userId n db
  | SetTime n => setUserTime f userId n db
  | AddTime n => addUserTime f userId n db
  end.

(** The balance a later read of [userId] reports is never negative. *)
Definition nonneg_doc (j : storedData) : Prop :=
  forall r, st_remainingMinutes j = Some r -> 0 <= r.

Definition store_nonneg (db : store) : Prop :=
  forall u j, db !! u = Some j -> nonneg_doc j.

(** A history of time mutations: who, what, and which Redis calls threw. *)
Definition history := list (faults * string * mutation).

Definition replay (h : history) (db : store) : store :=
  fold_left (fun st '(f, u, m) => apply_mutation f u m st) h db.

(** *** Premium flag, notes and profile summary *)

Definition with_premium (d : userData) (b : bool) : userData :=
  mkUserData (remainingMinutes d) b (personalizationNotes d) (llmProfileSummary d).

Definition with_notes (d : userData) (n : string) : userData :=
  mkUserData (remainingMinutes d) (isPremium d) n (llmProfileSummary d).

Definition with_summary (d : userData) (t : string) : userData :=
  mkUserData (remainingMinutes d) (isPremium d) (personalizationNotes d) t.

(** [setPremiumStatus]: the document is written only when the flag
    changes. *)
Definition setPremiumStatus (f : faults) (userId : string) (status : bool)
                            (db : store) : store :=
  let '(d, db1) := getUserDataInternal f userId db in
  if Bool.eqb (isPremium d) status then db1
  else saveUserDataInternal f userId (with_premium d status) db1.

Definition getUserPersonalizationNotes (f : faults) (userId : string) (db : store)
  : string * store :=
  let '(d, db1) := getUserDataInternal f userId db in
  (personalizationNotes d, db1).

(** [setUserPersonalizationNotes]; [notes] is [None] for a missing
    argument, which [notes || ''] turns into the empty string. *)
Definition setUserPersonalizationNotes (f : faults) (userId : string)
    (notes : option string) (db : store) : store :=
  let '(d, db1) := getUserDataInternal f userId db in
  if decide (Some (personalizationNotes d) = notes) then db1
  else saveUserDataInternal f userId (with_notes d (default EmptyString notes)) db1.

Definition getLlmProfileSummary (f : faults) (userId : string) (db : store)
  : string * store :=
  let '(d, db1) := getUserDataInternal f userId db in
  (llmProfileSummary d, db1).

Definition setLlmProfileSummary (f : faults) (userId : string)
    (summary : option string) (db : store) : store :=
  let '(d, db1) := getUserDataInternal f userId db in
  if decide (Some (llmProfileSummary d) = summary) then db1
  else saveUserDataInternal f userId (with_summary d (default EmptyString summary)) db1.

(** *** Premium keys: the Redis set [premium_keys] *)

(** [isValidPremiumKey]: membership, [false] when [sIsMember] throws. *)
Definition isValidPremiumKey (throws : bool) (key : string) (keys : gset string) : bool :=
  if throws then false else bool_decide (key ∈ keys).

(** [invalidatePremiumKey]: [sRem] reports how many members it removed. *)
Definition invalidatePremiumKey (throws : bool) (key : string) (keys : gset string)
  : bool * gset string :=
  if throws then (false, keys)
  else (bool_decide (key ∈ keys), keys ∖ {[key]}).

(** [addPremiumKey]: [sAdd] reports how many members it added. *)
Definition addPremiumKey (throws : bool) (key : string) (keys : gset string)
  : bool * gset string :=
  if throws then (false, keys)
  else (bool_decide (key ∉ keys), {[key]} ∪ keys).

End UserData.

(** ** The /premium command: src/commands/premium.js *)

Module PremiumCommand.

Inductive reply :=
| AlreadyPremium      (* You already have premium access *)
| InvalidKey          (* Invalid or expired premium key *)
| Unlocked.           (* Premium features unlocked *)

(** What Redis does during one execution, call by call. *)
Record env := mkEnv {
  statusFaults : UserData.faults;   (* getUserPremiumStatus *)
  validThrows : bool;               (* isValidPremiumKey *)
  grantFaults : UserData.faults;    (* setPremiumStatus *)
  invalidateThrows : bool           (* invalidatePremiumKey *)
}.


(** [execute]: the reply, the user documents and the key set afterwards. *)
Definition execute (e : env) (userId key : string)
    (db : gmap string UserData.storedData) (keys : gset string)
  : reply * gmap string UserData.storedData * gset string :=
  let '(isAlreadyPremium, db1) := UserData.getUserPremiumStatus (statusFaults e) userId db in
  if isAlreadyPremium then (AlreadyPremium, db1, keys)
  else if negb (UserData.isValidPremiumKey (validThrows e) key keys)
       then (InvalidKey, db1, keys)
       else
         let db2 := UserData.setPremiumStatus (grantFaults e) userId true db1 in
         let '(_, keys2) := UserData.invalidatePremiumKey (invalidateThrows e) key keys in
         (Unlocked, db2, keys2).

End PremiumCommand.

(** ** Media items shared by the fetcher and the session *)

Module Media.

(** A post as the content sources return it, reduced to the attributes the
    core reads.  [score] is the result of [parseInt(post.score, 10)], with
    [None] for [NaN]; [file_url] is the [file_url] attribute of a
    tag-indexed post and the [url] attribute of a link-aggregation post,
    [None] when it is missing. *)
Record post := mkPost {
  post_id : Z;
  file_url : option string;
  score : option Z;
  tags : list string;
  title : option string;
  flair : option string;
  subreddit : option string
}.

(** The [{url, post}] objects held in the queues and pools. *)
Record mediaItem := mkItem {
  url : string;
  item_post : post
}.

(** JavaScript truthiness of a string: only the empty string is falsy. *)
Definition truthy (s : string) : bool :=
  match s with EmptyString => false | String _ _ => true end.

Definition truthy_opt (o : option string) : bool :=
  match o with Some s => truthy s | None => false end.

End Media.

(** ** Batched commentary: src/llm/client.js *)

Module LlmClient.

(** The value [JSON.parse] yields. *)
#[local] Unset Elimination Schemes.
Inductive json :=
| JNull
| JBool (b : bool)
| JNum (n : Z)
| JStr (s : string)
| JArr (elems : list json)
| JObj (fields : list (string * json)).
#[local] Set Elimination Schemes.

(** What the upstream call did.  [RawText parsed] stands for a response
    whose text, cut from its first opening bracket to its last closing
    bracket, was given to [JSON.parse]: [parsed] is the parsed value, or
    [None] when [JSON.parse] threw. *)
Inductive generation :=
| GenerationThrows
| RawText (parsed : option json).

(** [typeof c !== 'string'] *)
Definition not_a_string (c : json) : bool :=
  match c with JStr _ => false | _ => true end.

Definition string_of (c : json) : string :=
  match c with JStr s => s | _ => EmptyString end.

(** The parse block of [generateBatchCommentary]: the parsed value is kept
    when it is an array all of whose elements are strings. *)
Definition parseCommentaries (parsed : option json) : option (list string) :=
  match parsed with
  | Some (JArr elems) =>
      if existsb not_a_string elems then None else Some (map string_of elems)
  | Some _ => None
  | None => None
  end.

(** The [commentaries] field of the object [generateBatchCommentary]
    resolves to ([None] for [null]).  [model] tells whether
    [getNextMainModel()] returned a model, [plugin] whether the session has
    a character plugin, and ['a] is the type of the per-item context. *)
Definition generateBatchCommentary {A : Type} (model plugin : bool)
    (mediaBatchInfo : list A) (g : generation) : option (list string) :=
  if negb model || (length mediaBatchInfo =? 0)%nat then None
  else if negb plugin then None
  else match g with
       | GenerationThrows => None
       | RawText parsed => parseCommentaries parsed
       end.

End LlmClient.

(** ** Tag-indexed batch fetch: src/media/fetcher.js *)

Module MediaFetcher.

Import Media.

Definition MAX_FETCH_PAGE : nat := 10.

Definition lower (c : ascii) : ascii :=
  let n := nat_of_ascii c in
  if ((65 <=? n) && (n <=? 90))%nat then ascii_of_nat (n + 32) else c.

Fixpoint lowercase (s : string) : string :=
  match s with
  | EmptyString => EmptyString
  | String c r => String (lower c) (lowercase r)
  end.

Fixpoint ends_with (suffix s : string) : bool :=
  if String.eqb s suffix then true
  else match s with
       | EmptyString => false
       | String _ r => ends_with suffix r
       end.

Definition media_extensions : list string :=
  [".jpeg"; ".jpg"; ".gif"; ".png"; ".webp"; ".mp4"; ".webm"]%string.

(** [/\.(jpeg|jpg|gif|png|webp|mp4|webm)$/i] *)
Definition isDirectMediaUrl (u : string) : bool :=
  existsb (fun ext => ends_with ext (lowercase u)) media_extensions.

(** The filter of [fetchMediaBatch]: a direct media link with a score
    above 100. *)
Definition suitable (p : post) : bool :=
  match file_url p, score p with
  | Some u, Some sc => truthy u && isDirectMediaUrl u && (100 <? sc)%Z
  | _, _ => false
  end.

(** The [do ... while (attemptedPages.has(randomPageId))] loop.  The tape
    holds the successive values of
    [Math.floor(Math.random() * (MAX_FETCH_PAGE + 1))]; the loop consumes
    draws until one is not yet attempted, and [None] means the tape ran
    out first. *)
Fixpoint drawPage (attemptedPages : gset nat) (tape : list nat)
  : option (nat * list nat) :=
  match tape with
  | [] => None
  | r :: rest =>
      if decide (r ∈ attemptedPages) then drawPage attemptedPages rest
      else Some (r, rest)
  end.

(** One iteration of [for (const post of suitablePosts)]; once the batch is
    full the loop breaks, which leaves the batch as it is for every later
    post. *)
Definition addUnique (batchSize : nat) (postedMediaUrls : gset string)
    (found : list mediaItem) (p : post) : list mediaItem :=
  if (batchSize <=? length found)%nat then found
  else match file_url p with
       | Some u =>
           if decide (u ∈ postedMediaUrls) then found
           else if existsb (fun it => String.eqb (url it) u) found then found
           else found ++ [mkItem u p]
       | None => found
       end.

Record batchRun := mkRun {
  foundMediaBatch : list mediaItem;
  requestedPages : list nat;   (* page ids passed to searchPosts, in order *)
  attemptedPages : gset nat;
  tapeLeft : list nat
}.

(** The [while] loop, by recursion on the page attempts that remain
    ([maxPageAttempts - currentAttempts]).  [searchPosts p] is what
    [rule34Client.searchPosts(tags, 100, p)] resolves to, [None] for
    [null]. *)
Fixpoint batchLoop (searchPosts : nat -> option (list post))
    (postedMediaUrls : gset string) (batchSize : nat)
    (attemptsLeft : nat) (r : batchRun) : option batchRun :=
  if negb ((length (foundMediaBatch r) <? batchSize)%nat
           && (size (attemptedPages r) <=? MAX_FETCH_PAGE + 1)%nat)
  then Some r
  else match attemptsLeft with
       | O => Some r
       | S n =>
           if (MAX_FETCH_PAGE + 1 <=? size (attemptedPages r))%nat then Some r
           else match drawPage (attemptedPages r) (tapeLeft r) with
                | None => None
                | Some (randomPageId, rest) =>
                    let posts := default [] (searchPosts randomPageId) in
                    let suitablePosts := filter (fun p => suitable p = true) posts in
                    batchLoop searchPosts postedMediaUrls batchSize n
                      (mkRun (fold_left (addUnique batchSize postedMediaUrls)
                                        suitablePosts (foundMediaBatch r))
                             (requestedPages r ++ [randomPageId])
                             ({[randomPageId]} ∪ attemptedPages r)
                             rest)
                end
       end.

(** [fetchMediaBatch(characterType, tags, postedMediaUrls, sessionId,
    batchSize, maxPageAttempts)].  The result carries, next to the batch,
    the pages that were requested. *)
Definition fetchMediaBatch (characterType : string)
    (searchPosts : nat -> option (list post))
    (postedMediaUrls : gset string) (batchSize maxPageAttempts : nat)
    (tape : list nat) : option batchRun :=
  if decide (characterType = "fictional"%string)
  then batchLoop searchPosts postedMediaUrls batchSize maxPageAttempts
                 (mkRun [] [] ∅ tape)
  else Some (mkRun [] [] ∅ tape).

End MediaFetcher.

(** ** The per-user state machine: src/sessions/Session.js *)

Module Session.

Import Media.

Definition ACTION_INTERVAL_MS : Z := 8 * 1000.
Definition COMMENTARY_BATCH_SIZE : nat := 3.

(** [Math.ceil(elapsedMs / (60 * 1000))] on integers.  The quotient of the
    source is a double; for every elapsed time below 2^53 milliseconds the
    rounded quotient has the same ceiling as the exact one. *)
Definition ceilMinutes (elapsedMs : Z) : Z := (- ((- elapsedMs) / 60000))%Z.

(** The character plugin, as far as the constructor reads it. *)
Record plugin := mkPlugin {
  pl_characterType : option string;
  pl_subreddits : option (list string);
  pl_tags : option (list string)
}.

(** One entry of [redditFetchState]. *)
Record fetchState := mkFetch {
  after : option string;
  isFetching : bool;
  allFetched : bool;
  currentPage : nat
}.

(** Handles returned by [setTimeout]. *)
Definition timerId := nat.

(** The fields fixed by the constructor. *)
Record identity := mkIdentity {
  sessionId : string;
  userId : string;
  characterType : string;
  durationMinutes : option Z;
  startTime : Z;
  sourceList : list string;
  currentRule34Tags : list string
}.

Record t := mkSession {
  ident : identity;
  isActive : bool;
  dmChannelId : option string;
  actionLoopTimerId : option timerId;
  sessionEndTimerId : option timerId;
  postedMediaUrls : gset string;
  postCycleCount : nat;
  currentMediaMessageId : option string;
  currentCommentaryMessageId : option string;
  triggeredTags : gset string;
  lastSentMediaInfo : option mediaItem;
  mediaBatchQueue : list mediaItem;
  commentaryQueue : list string;
  redditPostsPool : list mediaItem;
  redditFetchState : gmap string fetchState
}.

(** What a session does to the outside, in program order. *)
Inductive event :=
| EvPremiumCheck (user : string)            (* UserData.getUserPremiumStatus, start of the summary chain *)
| EvUpdateUserTime (user : string) (minutes : Z)  (* UserData.updateUserTime *)
| EvClearTimeout (h : timerId)
| EvSetTimeout (h : timerId) (delayMs : Z)
| EvDeleteSession (user : string)           (* SessionManager.deleteSession *)
| EvRedditRequest (subreddit : string) (cursor : option string)  (* getSubredditTopPosts *)
| EvFetchMediaBatch (tagList : list string) (* MediaFetcher.fetchMediaBatch *)
| EvGenerateBatch (items : nat)             (* LlmClient.generateBatchCommentary *)
| EvClosingNotice (delivered : bool)        (* the time-is-up message *)
| EvCommentaryDelivered (text : string)
| EvMediaDelivered (link : string).

(** *** Constructor *)

Definition new (sid uid : string) (p : plugin) (duration : option Z) (now : Z) : t :=
  let ctype := match pl_characterType p with
               | Some c => if truthy c then c else "fictional"%string
               | None => "fictional"%string
               end in
  let sources := if decide (ctype = "real"%string)
                 then default [] (pl_subreddits p)
                 else default [] (pl_tags p) in
  let r34 := if decide (ctype = "fictional"%string) then sources else [] in
  mkSession (mkIdentity sid uid ctype duration now sources r34)
            true None None None ∅ 0 None None ∅ None [] [] [] ∅.

(** *** Field updates *)

Definition set_dmChannelId (v : option string) (s : t) : t :=
  mkSession (ident s) (isActive s) v (actionLoopTimerId s) (sessionEndTimerId s)
    (postedMediaUrls s) (postCycleCount s) (currentMediaMessageId s)
    (currentCommentaryMessageId s) (triggeredTags s) (lastSentMediaInfo s)
    (mediaBatchQueue s) (commentaryQueue s) (redditPostsPool s) (redditFetchState s).

Definition set_actionLoopTimerId (v : option timerId) (s : t) : t :=
  mkSession (ident s) (isActive s) (dmChannelId s) v (sessionEndTimerId s)
    (postedMediaUrls s) (postCycleCount s) (currentMediaMessageId s)
    (currentCommentaryMessageId s) (triggeredTags s) (lastSentMediaInfo s)
    (mediaBatchQueue s) (commentaryQueue s) (redditPostsPool s) (redditFetchState s).

Definition set_sessionEndTimerId (v : option timerId) (s : t) : t :=
  mkSession (ident s) (isActive s) (dmChannelId s) (actionLoopTimerId s) v
    (postedMediaUrls s) (postCycleCount s) (currentMediaMessageId s)
    (currentCommentaryMessageId s) (triggeredTags s) (lastSentMediaInfo s)
    (mediaBatchQueue s) (commentaryQueue s) (redditPostsPool s) (redditFetchState s).

Definition set_postedMediaUrls (v : gset string) (s : t) : t :=
  mkSession (ident s) (isActive s) (dmChannelId s) (actionLoopTimerId s)
    (sessionEndTimerId s) v (postCycleCount s) (currentMediaMessageId s)
    (currentCommentaryMessageId s) (triggeredTags s) (lastSentMediaInfo s)
    (mediaBatchQueue s) (commentaryQueue s) (redditPostsPool s) (redditFetchState s).

Definition set_postCycleCount (v : nat) (s : t) : t :=
  mkSession (ident s) (isActive s) (dmChannelId s) (actionLoopTimerId s)
    (sessionEndTimerId s) (postedMediaUrls s) v (currentMediaMessageId s)
    (currentCommentaryMessageId s) (triggeredTags s) (lastSentMediaInfo s)
    (mediaBatchQueue s) (commentaryQueue s) (redditPostsPool s) (redditFetchState s).

Definition set_currentMediaMessageId (v : option string) (s : t) : t :=
  mkSession (ident s) (isActive s) (dmChannelId s) (actionLoopTimerId s)
    (sessionEndTimerId s) (postedMediaUrls s) (postCycleCount s) v
    (currentCommentaryMessageId s) (triggeredTags s) (lastSentMediaInfo s)
    (mediaBatchQueue s) (commentaryQueue s) (redditPostsPool s) (redditFetchState s).

Definition set_currentCommentaryMessageId (v : option string) (s : t) : t :=
  mkSession (ident s) (isActive s) (dmChannelId s) (actionLoopTimerId s)
    (sessionEndTimerId s) (postedMediaUrls s) (postCycleCount s)
    (currentMediaMessageId s) v (triggeredTags s) (lastSentMediaInfo s)
    (mediaBatchQueue s) (commentaryQueue s) (redditPostsPool s) (redditFetchState s).

Definition set_triggeredTags (v : gset string) (s : t) : t :=
  mkSession (ident s) (isActive s) (dmChannelId s) (actionLoopTimerId s)
    (sessionEndTimerId s) (postedMediaUrls s) (postCycleCount s)
    (currentMediaMessageId s) (currentCommentaryMessageId s) v (lastSentMediaInfo s)
    (mediaBatchQueue s) (commentaryQueue s) (redditPostsPool s) (redditFetchState s).

Definition set_lastSentMediaInfo (v : option mediaItem) (s : t) : t :=
  mkSession (ident s) (isActive s) (dmChannelId s) (actionLoopTimerId s)
    (sessionEndTimerId s) (postedMediaUrls s) (postCycleCount s)
    (currentMediaMessageId s) (currentCommentaryMessageId s) (triggeredTags s) v
    (mediaBatchQueue s) (commentaryQueue s) (redditPostsPool s) (redditFetchState s).

Definition set_mediaBatchQueue (v : list mediaItem) (s : t) : t :=
  mkSession (ident s) (isActive s) (dmChannelId s) (actionLoopTimerId s)
    (sessionEndTimerId s) (postedMediaUrls s) (postCycleCount s)
    (currentMediaMessageId s) (currentCommentaryMessageId s) (triggeredTags s)
    (lastSentMediaInfo s) v (commentaryQueue s) (redditPostsPool s) (redditFetchState s).

Definition set_commentaryQueue (v : list string) (s : t) : t :=
  mkSession (ident s) (isActive s) (dmChannelId s) (actionLoopTimerId s)
    (sessionEndTimerId s) (postedMediaUrls s) (postCycleCount s)
    (currentMediaMessageId s) (currentCommentaryMessageId s) (triggeredTags s)
    (lastSentMediaInfo s) (mediaBatchQueue s) v (redditPostsPool s) (redditFetchState s).

Definition set_redditPostsPool (v : list mediaItem) (s : t) : t :=
  mkSession (ident s) (isActive s) (dmChannelId s) (actionLoopTimerId s)
    (sessionEndTimerId s) (postedMediaUrls s) (postCycleCount s)
    (currentMediaMessageId s) (currentCommentaryMessageId s) (triggeredTags s)
    (lastSentMediaInfo s) (mediaBatchQueue s) (commentaryQueue s) v (redditFetchState s).

Definition set_redditFetchState (v : gmap string fetchState) (s : t) : t :=
  mkSession (ident s) (isActive s) (dmChannelId s) (actionLoopTimerId s)
    (sessionEndTimerId s) (postedMediaUrls s) (postCycleCount s)
    (currentMediaMessageId s) (currentCommentaryMessageId s) (triggeredTags s)
    (lastSentMediaInfo s) (mediaBatchQueue s) (commentaryQueue s) (redditPostsPool s) v.

Definition setDmChannelId (channelId : string) (s : t) : t :=
  set_dmChannelId (Some channelId) s.

(** [if (id) clearTimeout(id)] *)
Definition clearIfSet (h : option timerId) : list event :=
  match h with Some i => [EvClearTimeout i] | None => [] end.

(** *** endSession
    [reason] is only logged.  [now] is the value of [Date.now()]. *)
Definition endSession (reason : string) (now : Z) (s : t) : t * list event :=
  if negb (isActive s) then (s, [])
  else
    let elapsedMs := (now - startTime (ident s))%Z in
    let elapsedMinutes := ceilMinutes elapsedMs in
    (mkSession (ident s) false (dmChannelId s) (actionLoopTimerId s)
               (sessionEndTimerId s) ∅ (postCycleCount s) None None ∅ None
               [] [] [] ∅,
     [EvPremiumCheck (userId (ident s));
      EvUpdateUserTime (userId (ident s)) elapsedMinutes]
     ++ clearIfSet (actionLoopTimerId s)
     ++ clearIfSet (sessionEndTimerId s)
     ++ [EvDeleteSession (userId (ident s))]).

(** *** startActionLoopTimer
    [h] is the handle the new [setTimeout] returns. *)
Definition startActionLoopTimer (h : timerId) (s : t) : t * list event :=
  if negb (isActive s) then (s, [])
  else (set_actionLoopTimerId (Some h) s,
        clearIfSet (actionLoopTimerId s) ++ [EvSetTimeout h ACTION_INTERVAL_MS]).

(** *** recordTrigger *)
Definition recordTrigger (s : t) : t :=
  match lastSentMediaInfo s with
  | None => s
  | Some m => set_triggeredTags (list_to_set (tags (item_post m)) ∪ triggeredTags s) s
  end.

(** *** Paginated source: fetchNextRedditPage *)

(** A post of the link-aggregation source with its suitability
    attributes.  [gallery] is [Some urls] when both [gallery_data] and
    [media_metadata] are present; each element is the link extracted for
    one gallery entry, [None] when the optional chain yields nothing. *)
Record redditPost := mkRedditPost {
  rp_post : post;
  is_self : bool;
  stickied : bool;
  is_gallery : bool;
  gallery : option (list (option string))
}.

Definition image_extensions : list string :=
  [".jpeg"; ".jpg"; ".gif"; ".png"; ".webp"]%string.

(** [isSuitableRedditMediaPost] of src/media/redditClient.js *)
Definition isSuitableRedditMediaPost (rp : redditPost) : bool :=
  if is_self rp || stickied rp || is_gallery rp then false
  else match file_url (rp_post rp) with
       | Some u =>
           truthy u &&
           existsb (fun ext => MediaFetcher.ends_with ext (MediaFetcher.lowercase u))
                   image_extensions
       | None => false
       end.

(** The body of [result.posts.forEach] for one post. *)
Definition itemsOfPost (rp : redditPost) : list mediaItem :=
  match (if is_gallery rp then gallery rp else None) with
  | Some links =>
      omap (fun l => match l with
                     | Some u => if truthy u then Some (mkItem u (rp_post rp)) else None
                     | None => None
                     end) links
  | None =>
      if isSuitableRedditMediaPost rp
      then [mkItem (default EmptyString (file_url (rp_post rp))) (rp_post rp)]
      else []
  end.

Record page := mkPage {
  posts : list redditPost;
  page_after : option string
}.

(** How the promise of [getSubredditTopPosts] settles: [FetchThrows] is a
    rejection or an exception inside the [then] callback, [FetchResolved
    None] is the [null] the client returns on an error. *)
Inductive fetchOutcome :=
| FetchThrows
| FetchResolved (result : option page).

Definition mark_fetching (b : bool) (st : fetchState) : fetchState :=
  mkFetch (after st) b (allFetched st) (currentPage st).

Definition mark_allFetched (st : fetchState) : fetchState :=
  mkFetch (after st) (isFetching st) true (currentPage st).

(** [state.after = result.after; state.currentPage++;
    if (!state.after) state.allFetched = true] *)
Definition advance (next : option string) (st : fetchState) : fetchState :=
  mkFetch next (isFetching st)
          (if truthy_opt next then allFetched st else true)
          (S (currentPage st)).

(** The synchronous part of [fetchNextRedditPage]: the guards, the
    [isFetching] mark and the page request.  The boolean is the value the
    function resolves to. *)
Definition fetchNextRedditPage (sub : string) (s : t) : bool * t * list event :=
  if negb (isActive s) || negb (truthy sub) then (false, s, [])
  else match redditFetchState s !! sub with
       | None => (false, s, [])
       | Some st =>
           if isFetching st || allFetched st then (false, s, [])
           else (true,
                 set_redditFetchState
                   (<[sub := mark_fetching true st]> (redditFetchState s)) s,
                 [EvRedditRequest sub (after st)])
       end.

(** The [then] / [catch] / [finally] chain, run when the request settles.
    The callbacks write through the [state] object captured when the fetch
    began; as long as the session is active that object is the entry of
    [redditFetchState], and once the session has ended the map is empty and
    the writes are no longer visible. *)
Definition fetchSettled (sub : string) (o : fetchOutcome) (s : t) : t :=
  let s1 :=
    match o with
    | FetchThrows =>
        set_redditFetchState (alter mark_allFetched sub (redditFetchState s)) s
    | FetchResolved r =>
        if negb (isActive s) then s
        else match r with
             | Some pg =>
                 match posts pg with
                 | [] => set_redditFetchState
                           (alter mark_allFetched sub (redditFetchState s)) s
                 | _ :: _ =>
                     set_redditFetchState
                       (alter (advance (page_after pg)) sub (redditFetchState s))
                       (set_redditPostsPool
                          (redditPostsPool s ++ concat (map itemsOfPost (posts pg))) s)
                 end
             | None => set_redditFetchState
                         (alter mark_allFetched sub (redditFetchState s)) s
             end
    end in
  set_redditFetchState (alter (mark_fetching false) sub (redditFetchState s1)) s1.

(** [startTimers] initialises one entry per configured source. *)
Definition initFetchState (s : t) : t :=
  if decide (characterType (ident s) = "real"%string)
  then set_redditFetchState
         (fold_left (fun m sub => <[sub := mkFetch None false false 0]> m)
                    (sourceList (ident s)) (redditFetchState s)) s
  else s.

(** The last part of [startTimers]: the one-shot duration timer, armed
    only for a positive duration. *)
Definition armEndTimer (h : timerId) (s : t) : t * list event :=
  match durationMinutes (ident s) with
  | Some d =>
      if (0 <? d)%Z
      then (set_sessionEndTimerId (Some h) s, [EvSetTimeout h (d * 60 * 1000)%Z])
      else (s, [])
  | None => (s, [])
  end.

(** The sources a refill may be started for, in the order of
    [Object.keys(this.redditFetchState)], which is the order in which
    [startTimers] inserted them. *)
Definition eligible (s : t) (sub : string) : bool :=
  match redditFetchState s !! sub with
  | Some st => negb (allFetched st) && negb (isFetching st)
  | None => false
  end.

Definition firstEligible (s : t) : option string :=
  head (List.filter (eligible s) (sourceList (ident s))).

(** *** The action cycle: executeNextActionCycle *)

Inductive editOutcome := EditOk | EditNotFound | EditThrows.

(** Everything one cycle receives from outside, one field per [await] or
    clock reading, in program order. *)
Record cycleEnv := mkEnv {
  premium : bool;               (* UserData.getUserPremiumStatus *)
  dmFetched : bool;             (* client.channels.fetch resolved *)
  nowCheck : Z;                 (* Date.now() of the time check *)
  remainingTime : Z;            (* UserData.getUserTime *)
  noticeDelivered : bool;       (* the closing notice was sent *)
  nowEnd : Z;                   (* Date.now() inside endSession *)
  pick : nat -> nat;            (* k-th Math.floor(Math.random() * pool.length) *)
  syncFetch : fetchOutcome;     (* the awaited page request *)
  singleCommentary : string;    (* generateMediaCommentary(...).commentary *)
  fetchedMediaBatch : option (list mediaItem);  (* MediaFetcher.fetchMediaBatch *)
  modelAvailable : bool;        (* getNextMainModel() returned a model *)
  generated : LlmClient.generation;
  embedThrows : bool;           (* an exception reaches the outer catch *)
  commentaryEdit : editOutcome;
  commentarySend : option string;   (* id of the sent message, None if it threw *)
  mediaEdit : editOutcome;
  mediaSend : option string;
  timerHandle : timerId         (* handle of the next setTimeout *)
}.

(** [_mapRedditPostToFetchedMedia] *)
Definition mapRedditPostToFetchedMedia (item : mediaItem) : option mediaItem :=
  if truthy (url item) then
    let raw := item_post item in
    Some (mkItem (url item)
            (mkPost (post_id raw) (Some (url item))
                    (Some (default 0%Z (score raw)))
                    (match subreddit raw with
                     | Some sub => if truthy sub then [sub] else []
                     | None => []
                     end)
                    (title raw) (flair raw) (subreddit raw)))
  else None.

(** [while (!candidate && attempts < maxAttempts && pool.length > 0)].
    [k] counts the random draws already made in this cycle. *)
Fixpoint selectFromPool (pool : list mediaItem) (posted : gset string)
    (pick : nat -> nat) (k attemptsLeft : nat) : option mediaItem * nat :=
  match attemptsLeft with
  | O => (None, k)
  | S n =>
      match pool with
      | [] => (None, k)
      | _ :: _ =>
          match pool !! pick k ≫= mapRedditPostToFetchedMedia with
          | Some m =>
              if decide (url m ∈ posted)
              then selectFromPool pool posted pick (S k) n
              else (Some m, S k)
          | None => selectFromPool pool posted pick (S k) n
          end
      end
  end.

(** What a refill hands to the dequeue step. *)
Record refilled := mkRefilled {
  rf_session : t;
  rf_events : list event;
  rf_fetchedItem : option mediaItem;
  rf_commentary : option string     (* llmResult.commentary *)
}.

(** The branch [characterType === 'real']. *)
Definition refillReal (env : cycleEnv) (s : t) : refilled :=
  let maxAttempts := length (redditPostsPool s) + 5 in
  let '(first, k1) := selectFromPool (redditPostsPool s) (postedMediaUrls s)
                                     (pick env) 0 maxAttempts in
  let '(s1, ev1, candidate) :=
    match first with
    | Some c => (s, [], Some c)
    | None =>
        match firstEligible s with
        | Some sub =>
            let '(started, s', ev) := fetchNextRedditPage sub s in
            if started then
              let s'' := fetchSettled sub (syncFetch env) s' in
              (s'', ev, fst (selectFromPool (redditPostsPool s'') (postedMediaUrls s'')
                                            (pick env) k1 maxAttempts))
            else (s', ev, None)
        | None => (s, [], None)
        end
    end in
  let llm := match candidate with
             | Some _ => Some (singleCommentary env)
             | None => None
             end in
  match firstEligible s1 with
  | Some sub =>
      let '(_, s2, ev2) := fetchNextRedditPage sub s1 in
      mkRefilled s2 (ev1 ++ ev2) candidate llm
  | None => mkRefilled s1 ev1 candidate llm
  end.

(** The branch [characterType === 'fictional']: fetch a batch, generate
    its commentaries, keep both or neither. *)
Definition refillFictional (env : cycleEnv) (s : t) : refilled :=
  let listToFetchWith :=
    match currentRule34Tags (ident s) with
    | [] => sourceList (ident s)
    | _ :: _ => currentRule34Tags (ident s)
    end in
  let batch := default [] (fetchedMediaBatch env) in
  match batch with
  | [] => mkRefilled s [EvFetchMediaBatch listToFetchWith] None None
  | _ :: _ =>
      let s1 := set_mediaBatchQueue batch s in
      let batchLlmResult :=
        LlmClient.generateBatchCommentary (modelAvailable env) true
          (mediaBatchQueue s1) (generated env) in
      let s2 :=
        match batchLlmResult with
        | Some commentaries =>
            if (length commentaries =? length (mediaBatchQueue s1))%nat
            then set_commentaryQueue commentaries s1
            else set_commentaryQueue [] (set_mediaBatchQueue [] s1)
        | None => set_commentaryQueue [] (set_mediaBatchQueue [] s1)
        end in
      mkRefilled s2 [EvFetchMediaBatch listToFetchWith;
                     EvGenerateBatch (length batch)] None None
  end.

(** The [else] branch of the queue check up to the dequeue step: both
    queues are cleared, then the branch of the character type runs. *)
Definition refill (env : cycleEnv) (s : t) : refilled :=
  let s0 := set_commentaryQueue [] (set_mediaBatchQueue [] s) in
  if decide (characterType (ident s0) = "real"%string) then refillReal env s0
  else if decide (characterType (ident s0) = "fictional"%string)
       then refillFictional env s0
       else mkRefilled s0 [] None None.

(** [Array.prototype.shift]: the removed element ([None] for
    [undefined]) and the rest. *)
Definition shift {A : Type} (q : list A) : option A * list A :=
  match q with
  | [] => (None, [])
  | x :: rest => (Some x, rest)
  end.

Definition both_nonempty (s : t) : bool :=
  (0 <? length (commentaryQueue s))%nat && (0 <? length (mediaBatchQueue s))%nat.

Definition dequeue (s : t) : t * option mediaItem * option string :=
  let '(m, mq) := shift (mediaBatchQueue s) in
  let '(c, cq) := shift (commentaryQueue s) in
  (set_commentaryQueue cq (set_mediaBatchQueue mq s), m, c).

(** What the cycle selected for delivery. *)
Record selected := mkSelected {
  sel_session : t;
  sel_events : list event;
  mediaToSend : option mediaItem;
  commentaryToSend : option string
}.

(** From [this.postCycleCount++] to the end of the queue check. *)
Definition selectNext (env : cycleEnv) (s : t) : selected :=
  let s := set_postCycleCount (S (postCycleCount s)) s in
  if both_nonempty s then
    let '(s1, m, c) := dequeue s in mkSelected s1 [] m c
  else
    let r := refill env s in
    match rf_fetchedItem r, rf_commentary r with
    | Some item, Some c =>
        if truthy c then mkSelected (rf_session r) (rf_events r) (Some item) (Some c)
        else if both_nonempty (rf_session r) then
               let '(s1, m, c') := dequeue (rf_session r) in
               mkSelected s1 (rf_events r) m c'
             else mkSelected (rf_session r) (rf_events r) None None
    | _, _ =>
        if both_nonempty (rf_session r) then
          let '(s1, m, c) := dequeue (rf_session r) in
          mkSelected s1 (rf_events r) m c
        else mkSelected (rf_session r) (rf_events r) None None
    end.

(** Step 4: edit the commentary message in place, or send a new one. *)
Definition deliverCommentary (env : cycleEnv) (c : string) (s : t) : t * list event :=
  let '(s1, ev1) :=
    if truthy_opt (currentCommentaryMessageId s) then
      match commentaryEdit env with
      | EditOk => (s, [EvCommentaryDelivered c])
      | EditNotFound | EditThrows => (set_currentCommentaryMessageId None s, [])
      end
    else (s, []) in
  if truthy_opt (currentCommentaryMessageId s1) then (s1, ev1)
  else match commentarySend env with
       | Some id => (set_currentCommentaryMessageId (Some id) s1,
                     ev1 ++ [EvCommentaryDelivered c])
       | None => (s1, ev1)
       end.

(** Step 5: the same for the media message; a delivered link joins the
    posted set. *)
Definition deliverMedia (env : cycleEnv) (m : mediaItem) (s : t) : t * list event :=
  if negb (truthy (url m)) then (s, [])
  else
    let '(s1, edited) :=
      if truthy_opt (currentMediaMessageId s) then
        match mediaEdit env with
        | EditOk => (s, true)
        | EditNotFound | EditThrows => (set_currentMediaMessageId None s, false)
        end
      else (s, false) in
    let '(s2, sentOrEdited) :=
      if truthy_opt (currentMediaMessageId s1) then (s1, edited)
      else match mediaSend env with
           | Some id => (set_currentMediaMessageId (Some id) s1, true)
           | None => (s1, edited)
           end in
    if sentOrEdited
    then (set_postedMediaUrls ({[url m]} ∪ postedMediaUrls s2) s2,
          [EvMediaDelivered (url m)])
    else (s2, []).

(** Steps 3 to 6 for what [selectNext] selected. *)
Definition deliver (env : cycleEnv) (sel : selected) : t * list event :=
  let s := sel_session sel in
  match mediaToSend sel, commentaryToSend sel with
  | Some m, Some c =>
      if truthy c then
        let s1 := set_lastSentMediaInfo (Some m) s in
        if embedThrows env
        then (s1, [EvSetTimeout (timerHandle env) (ACTION_INTERVAL_MS / 2)])
        else
          let '(s2, ev2) := deliverCommentary env c s1 in
          let '(s3, ev3) := deliverMedia env m s2 in
          let '(s4, ev4) := startActionLoopTimer (timerHandle env) s3 in
          (s4, ev2 ++ ev3 ++ ev4)
      else startActionLoopTimer (timerHandle env) s
  | _, _ => startActionLoopTimer (timerHandle env) s
  end.

(** [executeNextActionCycle].  The cycle is followed from its first line to
    its last with no other callback of the session running in between. *)
Definition executeNextActionCycle (env : cycleEnv) (s : t) : t * list event :=
  if negb (isActive s) then (s, [])
  else if negb (truthy_opt (dmChannelId s)) then (s, [])
  else if negb (dmFetched env)
       then endSession "DM Channel Fetch Failed" (nowEnd env) s
  else
    let elapsedMs := (nowCheck env - startTime (ident s))%Z in
    let elapsedMinutes := ceilMinutes elapsedMs in
    if (remainingTime env <=? elapsedMinutes)%Z then
      let '(s1, ev) := endSession "Ran out of time" (nowEnd env) s in
      (s1, EvClosingNotice (noticeDelivered env) :: ev)
    else
      let sel := selectNext env s in
      let '(s1, ev) := deliver env sel in
      (s1, clearIfSet (actionLoopTimerId s) ++ sel_events sel ++ ev).


(** *** Reading a trace *)

Definition is_deduction (e : event) : bool :=
  match e with EvUpdateUserTime _ _ => true | _ => false end.



Definition is_delivery (e : event) : bool :=
  match e with
  | EvCommentaryDelivered _ | EvMediaDelivered _ => true
  | _ => false
  end.

Definition is_request (e : event) : bool :=
  match e with
  | EvRedditRequest _ _ | EvFetchMediaBatch _ | EvGenerateBatch _ => true
  | _ => false
  end.

Definition is_schedule (e : event) : bool :=
  match e with EvSetTimeout _ _ => true | _ => false end.



(** *** Runs of a started session
    What happens to a session once [startTimers] has set it up, as data:
    background refills and their settling, cycles, timer restarts, trigger
    clicks and calls of the end routine. *)
Inductive op :=
| OpFetch (sub : string)                      (* fetchNextRedditPage(sub, true) *)
| OpSettled (sub : string) (o : fetchOutcome) (* the request for sub settles *)
| OpCycle (env : cycleEnv)
| OpTimer (h : timerId)
| OpTrigger
| OpEnd (reason : string) (now : Z).

Definition exec (o : op) (s : t) : t * list event :=
  match o with
  | OpFetch sub => let '(_, s1, ev) := fetchNextRedditPage sub s in (s1, ev)
  | OpSettled sub out => (fetchSettled sub out s, [])
  | OpCycle env => executeNextActionCycle env s
  | OpTimer h => startActionLoopTimer h s
  | OpTrigger => (recordTrigger s, [])
  | OpEnd reason now => endSession reason now s
  end.

Fixpoint execAll (ops : list op) (s : t) : t * list event :=
  match ops with
  | [] => (s, [])
  | o :: rest =>
      let '(s1, ev1) := exec o s in
      let '(s2, ev2) := execAll rest s1 in
      (s2, ev1 ++ ev2)
  end.

(** The source [sub] is exhausted, or its state is gone because the session
    has ended. *)
Definition exhausted (sub : string) (s : t) : Prop :=
  forall st, redditFetchState s !! sub = Some st -> allFetched st = true.

(** No page of [sub] is requested in a trace. *)
Definition never_requests (sub : string) (evs : list event) : Prop :=
  forall cursor, ~ In (EvRedditRequest sub cursor) evs.

End Session.

(** ** The coordinator: src/sessions/SessionManager.js *)

Module SessionManager.

(** Identity of a [Session] object inside one process. *)
Definition ref := nat.

(** One shard process: its id, the module-level [localActiveSessions] map
    and every [Session] object it has constructed.  The map holds
    references, so an object that is overwritten in or deleted from the map
    goes on existing. *)
Record proc := mkProc {
  shardId : Z;
  localActiveSessions : gmap string ref;
  objects : list Session.t
}.

(** The [user_shard:] key space of Redis.  The stored value is
    [currentShardId.toString()], read back with [parseInt]; the model keeps
    the integer. *)
Abbreviation registry := (gmap string Z).

(** The arguments of one [createSession] call together with what the
    outside world does to it. *)
Record callArgs := mkArgs {
  clientOk : bool;              (* client && client.shard *)
  a_userId : string;
  a_plugin : Session.plugin;
  a_duration : option Z;
  a_uuid : string;              (* crypto.randomUUID() *)
  a_now : Z;                    (* Date.now() in the constructor *)
  a_nowEnd : Z;                 (* Date.now() of a rollback *)
  getThrows : bool;             (* redisClient.get *)
  setThrows : bool;             (* redisClient.set *)
  delThrows : bool              (* redisClient.del *)
}.

Inductive outcome :=
| Created (r : ref)     (* resolves to the new Session *)
| Refused               (* resolves to null *)
| Rejected.             (* the promise rejects *)

(** [deleteSession(userId)]: the local reference goes first, then the
    registry key, unless [del] throws. *)
Definition deleteSession (userId : string) (delFails : bool)
    (p : proc) (reg : registry) : proc * registry :=
  (mkProc (shardId p) (delete userId (localActiveSessions p)) (objects p),
   if delFails then reg else delete userId reg).

(** Run [endSession] on the object [r] and carry out the
    [SessionManager.deleteSession] call it makes. *)
Definition endObject (r : ref) (reason : string) (now : Z) (delFails : bool)
    (p : proc) (reg : registry) : proc * registry * list Session.event :=
  match objects p !! r with
  | None => (p, reg, [])
  | Some s =>
      let '(s', ev) := Session.endSession reason now s in
      let p1 := mkProc (shardId p) (localActiveSessions p) (<[r := s']> (objects p)) in
      if Session.isActive s
      then let '(p2, reg2) := deleteSession (Session.userId (Session.ident s))
                                            delFails p1 reg in
           (p2, reg2, ev)
      else (p1, reg, ev)
  end.

(** A [createSession] call between its two awaits. *)
Inductive call :=
| NotStarted                 (* before the registry read is answered *)
| AwaitingSet (r : ref)      (* Session built and stored locally, write issued *)
| Finished (res : outcome).

(** First half: the registry read is answered with [existingShardId] and
    the call runs up to the registry write. *)
Definition createSession_check (a : callArgs) (p : proc) (reg : registry)
  : proc * call :=
  if negb (clientOk a) then (p, Finished Refused)
  else if getThrows a then (p, Finished Rejected)
  else match reg !! a_userId a with
       | Some existingShardId => (p, Finished Refused)
       | None =>
           let newSession := Session.new (a_uuid a) (a_userId a) (a_plugin a)
                                         (a_duration a) (a_now a) in
           let r := length (objects p) in
           (mkProc (shardId p) (<[a_userId a := r]> (localActiveSessions p))
                   (objects p ++ [newSession]),
            AwaitingSet r)
       end.

(** Second half: the registry write is carried out or throws; on a throw
    the local reference is deleted and the new Session is ended. *)
Definition createSession_register (a : callArgs) (r : ref) (p : proc)
    (reg : registry) : proc * registry * call * list Session.event :=
  if setThrows a then
    let p1 := mkProc (shardId p) (delete (a_userId a) (localActiveSessions p))
                     (objects p) in
    let '(p2, reg2, ev) := endObject r "Redis Registration Failed"
                                     (a_nowEnd a) (delThrows a) p1 reg in
    (p2, reg2, Finished Refused, ev)
  else (p, <[a_userId a := shardId p]> reg, Finished (Created r), []).

(** [createSession] with nothing else running between its awaits. *)
Definition createSession (a : callArgs) (p : proc) (reg : registry)
  : proc * registry * outcome * list Session.event :=
  match createSession_check a p reg with
  | (p1, AwaitingSet r) =>
      match createSession_register a r p1 reg with
      | (p2, reg2, Finished res, ev) => (p2, reg2, res, ev)
      | (p2, reg2, _, ev) => (p2, reg2, Refused, ev)
      end
  | (p1, Finished res) => (p1, reg, res, [])
  | (p1, NotStarted) => (p1, reg, Refused, [])
  end.

(** *** Several calls in flight
    Processes share the registry and nothing else.  Each call belongs to a
    process; a schedule names, step by step, the call whose pending Redis
    command is answered next. *)
Record system := mkSystem {
  sys_registry : registry;
  procs : list proc;
  calls : list (nat * callArgs * call)    (* process index, arguments, progress *)
}.

Definition advance (i : nat) (sys : system) : system :=
  match calls sys !! i with
  | None => sys
  | Some (pi, a, c) =>
      match procs sys !! pi with
      | None => sys
      | Some p =>
          match c with
          | NotStarted =>
              let '(p1, c1) := createSession_check a p (sys_registry sys) in
              mkSystem (sys_registry sys) (<[pi := p1]> (procs sys))
                       (<[i := (pi, a, c1)]> (calls sys))
          | AwaitingSet r =>
              let '(p1, reg1, c1, _) :=
                createSession_register a r p (sys_registry sys) in
              mkSystem reg1 (<[pi := p1]> (procs sys))
                       (<[i := (pi, a, c1)]> (calls sys))
          | Finished _ => sys
          end
      end
  end.

Definition run (schedule : list nat) (sys : system) : system :=
  fold_left (fun st i => advance i st) schedule sys.

(** The calls that resolved to a Session. *)
Definition is_created (c : nat * callArgs * call) : bool :=
  match c with
  | (_, _, Finished (Created _)) => true
  | _ => false
  end.

Definition successes (sys : system) : nat :=
  length (List.filter is_created (calls sys)).

(** The active Session objects of [userId] held by a process, and by the
    whole system. *)
Definition active_for (userId : string) (s : Session.t) : bool :=
  Session.isActive s && String.eqb (Session.userId (Session.ident s)) userId.

Definition active_in (userId : string) (p : proc) : nat :=
  length (List.filter (active_for userId) (objects p)).

Definition active_anywhere (userId : string) (sys : system) : nat :=
  list_sum (map (active_in userId) (procs sys)).

End SessionManager.

(** * Properties *)

(** ** Quota store *)

Section QuotaStore.

Import UserData.
Local Open Scope Z_scope.

Lemma backfill_nonneg j : nonneg_doc j -> 0 <= remainingMinutes (backfill j).
Proof.
  unfold nonneg_doc, backfill; simpl.
  destruct (st_remainingMinutes j) as [r|]; simpl; intros H.
  - by apply H.
  - unfold DEFAULT_STARTING_TIME; lia.
Qed.

Lemma stringify_nonneg d : 0 <= remainingMinutes d -> nonneg_doc (stringify d).
Proof. intros H r; simpl; intros [= <-]; exact H. Qed.

Lemma insert_nonneg (u : string) (j : storedData) (db : gmap string storedData) :
  nonneg_doc j -> store_nonneg db -> store_nonneg (<[u := j]> db).
Proof.
  intros Hj Hdb u' j'. rewrite lookup_insert.
  case_decide; [intros [= <-]; exact Hj | apply Hdb].
Qed.

(** Reading never breaks the invariant and always reports a balance that
    is not negative. *)
Lemma getUserDataInternal_nonneg f u (db : gmap string storedData) :
  store_nonneg db ->
  0 <= remainingMinutes (getUserDataInternal f u db).1
  /\ store_nonneg (getUserDataInternal f u db).2.
Proof.
  intros Hdb. unfold getUserDataInternal.
  destruct (get_throws f); simpl.
  { split; [unfold DEFAULT_STARTING_TIME; lia | exact Hdb]. }
  destruct (db !! u) as [j|] eqn:E; simpl.
  { split; [apply backfill_nonneg; eapply Hdb; eauto | exact Hdb]. }
  destruct (init_set_throws f); simpl;
    (split; [unfold DEFAULT_STARTING_TIME; lia |]); [exact Hdb |].
  apply insert_nonneg; [|exact Hdb].
  apply stringify_nonneg; simpl; unfold DEFAULT_STARTING_TIME; lia.
Qed.

Lemma save_nonneg f u d (db : gmap string storedData) :
  0 <= remainingMinutes d -> store_nonneg db ->
  store_nonneg (saveUserDataInternal f u d db).
Proof.
  intros Hd Hdb. unfold saveUserDataInternal.
  destruct (save_throws f); [exact Hdb |].
  apply insert_nonneg; [by apply stringify_nonneg | exact Hdb].
Qed.

Lemma apply_mutation_nonneg f u m (db : gmap string storedData) :
  store_nonneg db -> store_nonneg (apply_mutation f u m db).
Proof.
  intros Hdb.
  destruct (getUserDataInternal_nonneg f u db Hdb) as [Hr Hs].
  destruct m as [n|n|n]; simpl;
    unfold updateUserTime, setUserTime, addUserTime;
    destruct (getUserDataInternal f u db) as [d db1]; simpl in *;
    apply save_nonneg; simpl; try exact Hs; lia.
Qed.

Lemma empty_store_nonneg : store_nonneg (∅ : gmap string storedData).
Proof. intros u j; rewrite lookup_empty; discriminate. Qed.

Lemma replay_nonneg h : forall db : gmap string storedData,
  store_nonneg db -> store_nonneg (replay h db).
Proof.
  induction h as [|[[f u] m] h IH]; intros db Hdb; simpl; [exact Hdb |].
  apply IH. by apply apply_mutation_nonneg.
Qed.

End QuotaStore.

(** C10.  Every quota-store mutation preserves non-negativity of the
    remaining-time balance: if no stored balance is negative, then after
    [updateUserTime], [setUserTime] or [addUserTime] with any integer
    argument (negative or arbitrarily large), for any user and whichever
    Redis calls throw, no stored balance is negative; hence a store that
    starts empty never holds a negative balance, whatever the history of
    mutations. *)
Theorem quota_mutations_preserve_nonneg :
  (forall f u m (db : gmap string UserData.storedData),
      UserData.store_nonneg db ->
      UserData.store_nonneg (UserData.apply_mutation f u m db))
  /\ (forall h, UserData.store_nonneg (UserData.replay h ∅)).
Proof.
  split.
  - intros; by apply apply_mutation_nonneg.
  - intros h. apply replay_nonneg, empty_store_nonneg.
Qed.

Lemma quota_mutations_preserve_nonneg_witness :
  UserData.store_nonneg
    (UserData.apply_mutation UserData.no_faults "u" (UserData.Update 1000)
       (UserData.apply_mutation UserData.no_faults "u" (UserData.AddTime (-7)) ∅))
  /\ (UserData.getUserTime UserData.no_faults "u"
        (UserData.apply_mutation UserData.no_faults "u" (UserData.Update 1000)
           (UserData.apply_mutation UserData.no_faults "u" (UserData.AddTime (-7)) ∅))).1
     = 0%Z.
Proof.
  split.
  - apply (proj1 quota_mutations_preserve_nonneg).
    apply (proj1 quota_mutations_preserve_nonneg).
    apply empty_store_nonneg.
  - vm_compute. reflexivity.
Defined.

(** ** Ending a session *)

Section EndSession.

Import Session.
Local Open Scope Z_scope.

Lemma ceilMinutes_spec e :
  60000 * (ceilMinutes e - 1) < e <= 60000 * ceilMinutes e.
Proof.
  unfold ceilMinutes.
  pose proof (Z.div_mod (- e) 60000 ltac:(lia)) as Hd.
  pose proof (Z.mod_pos_bound (- e) 60000 ltac:(lia)) as Hm.
  lia.
Qed.

Lemma ceilMinutes_nonneg e : 0 <= e -> 0 <= ceilMinutes e.
Proof. intros H. pose proof (ceilMinutes_spec e). lia. Qed.

Lemma ceilMinutes_least e k : e <= 60000 * k -> ceilMinutes e <= k.
Proof. intros H. pose proof (ceilMinutes_spec e). lia. Qed.



Lemma filter_clearIfSet_deduction h : List.filter is_deduction (clearIfSet h) = [].
Proof. by destruct h. Qed.



Lemma endSession_active_events reason now s :
  isActive s = true ->
  (endSession reason now s).2 =
    [EvPremiumCheck (userId (ident s));
     EvUpdateUserTime (userId (ident s)) (ceilMinutes (now - startTime (ident s)))]
    ++ clearIfSet (actionLoopTimerId s) ++ clearIfSet (sessionEndTimerId s)
    ++ [EvDeleteSession (userId (ident s))].
Proof. intros H. unfold endSession. by rewrite H. Qed.

End EndSession.


Definition demo_plugin : Session.plugin :=
  Session.mkPlugin (Some "fictional") None (Some ["tag_a"; "tag_b"]).

(** A fictional session created at time 1000 with both timers set. *)
Definition demo_session : Session.t :=
  (Session.armEndTimer 8
     (Session.startActionLoopTimer 7
        (Session.setDmChannelId "dm1"
           (Session.new "sid" "u" demo_plugin (Some 30%Z) 1000%Z))).1).1.


Section Deduction.

Import UserData.
Local Open Scope Z_scope.

(** Without Redis faults, a read after [updateUserTime] reports the old
    balance less the minutes used, cut off at zero. *)
Lemma balance_after_update u m (db : gmap string storedData) :
  (getUserTime no_faults u (updateUserTime no_faults u m db)).1
  = Z.max 0 ((getUserTime no_faults u db).1 - m).
Proof.
  unfold getUserTime, updateUserTime, getUserDataInternal, saveUserDataInternal.
  simpl. destruct (db !! u) as [j|] eqn:E; simpl; rewrite lookup_insert_eq; reflexivity.
Qed.

End Deduction.

(** C5.  When an active session ends at clock reading [now], not earlier
    than its start, the end routine asks the quota store for exactly one
    deduction, of the elapsed milliseconds over 60000 rounded up.  That
    amount is not negative and is the least whole number of minutes covering
    the elapsed time.  In the store the balance drops by that amount, cut
    off at zero, so what is taken from a non-negative balance lies between
    zero and the elapsed minutes rounded up. *)
Theorem endSession_deducts_elapsed_rounded_up :
  forall reason now s,
    Session.isActive s = true ->
    (Session.startTime (Session.ident s) <= now)%Z ->
    let elapsedMs := (now - Session.startTime (Session.ident s))%Z in
    let minutes := Session.ceilMinutes elapsedMs in
    let user := Session.userId (Session.ident s) in
    List.filter Session.is_deduction (Session.endSession reason now s).2
      = [Session.EvUpdateUserTime user minutes]
    /\ (0 <= minutes)%Z
    /\ (60000 * (minutes - 1) < elapsedMs <= 60000 * minutes)%Z
    /\ (forall k, (elapsedMs <= 60000 * k)%Z -> (minutes <= k)%Z)
    /\ (forall db : gmap string UserData.storedData,
          let before := (UserData.getUserTime UserData.no_faults user db).1 in
          let after := (UserData.getUserTime UserData.no_faults user
                          (UserData.updateUserTime UserData.no_faults user minutes db)).1 in
          after = Z.max 0 (before - minutes)
          /\ ((0 <= before)%Z -> (0 <= before - after <= minutes)%Z)).
Proof.
  intros reason now s Hact Hclock elapsedMs minutes user.
  assert (Hnn : (0 <= minutes)%Z) by (apply ceilMinutes_nonneg; unfold elapsedMs; lia).
  split.
  { rewrite (endSession_active_events reason now s Hact).
    rewrite !List.filter_app, !filter_clearIfSet_deduction. reflexivity. }
  split; [exact Hnn |].
  split; [apply ceilMinutes_spec |].
  split; [intros k Hk; by apply ceilMinutes_least |].
  intros db before after.
  assert (Hafter : after = Z.max 0 (before - minutes)) by apply balance_after_update.
  split; [exact Hafter | intros Hb; lia].
Qed.

Lemma endSession_deducts_elapsed_rounded_up_witness :
  List.filter Session.is_deduction (Session.endSession "stop" 61001%Z demo_session).2
  = [Session.EvUpdateUserTime "u" 2%Z].
Proof.
  exact (proj1 (endSession_deducts_elapsed_rounded_up "stop" 61001%Z demo_session
                  eq_refl ltac:(vm_compute; discriminate))).
Defined.

(** ** The time check at the start of a cycle *)

(** An outside world in which every call succeeds. *)
Definition calm_env (nowCheck remaining nowEnd : Z) : Session.cycleEnv :=
  Session.mkEnv false true nowCheck remaining true nowEnd (fun _ => 0)
    (Session.FetchResolved None) "text" None true LlmClient.GenerationThrows
    false Session.EditOk (Some "m1") Session.EditOk (Some "m2") 9.



(** ** The queues *)

Section Queues.

Import Session.











(** What [selectNext] does when neither fresh item nor commentary is taken
    directly: dequeue if both queues have something, else select nothing. *)
Definition fromQueues (r : refilled) : selected :=
  if both_nonempty (rf_session r) then
    let '(s1, m, c) := dequeue (rf_session r) in
    mkSelected s1 (rf_events r) m c
  else mkSelected (rf_session r) (rf_events r) None None.



Lemma selectNext_cases env s :
  let s0 := set_postCycleCount (S (postCycleCount s)) s in
  (both_nonempty s = true /\
   selectNext env s = (let '(s1, m, c) := dequeue s0 in mkSelected s1 [] m c))
  \/ (both_nonempty s = false /\
      ((exists item c, selectNext env s
                       = mkSelected (rf_session (refill env s0))
                                    (rf_events (refill env s0)) (Some item) (Some c))
       \/ selectNext env s = fromQueues (refill env s0))).
Proof.
  intros s0. unfold selectNext. fold s0.
  change (both_nonempty s0) with (both_nonempty s).
  destruct (both_nonempty s) eqn:E; [left; done | right; split; [done |]].
  fold (fromQueues (refill env s0)).
  destruct (rf_fetchedItem (refill env s0)) as [item|]; [| by right].
  destruct (rf_commentary (refill env s0)) as [c|]; [| by right].
  destruct (Media.truthy c); [left; by exists item, c | by right].
Qed.

End Queues.

Section Lockstep.

Import Session.












End Lockstep.

(** Three media items and a world that returns them as the fetched batch,
    with [cs] as the commentaries parsed from the generated text. *)
Definition demo_item (n : Z) (link : string) : Media.mediaItem :=
  Media.mkItem link (Media.mkPost n (Some link) (Some 500%Z) ["tag_a"] None None None).

Definition batch3 : list Media.mediaItem :=
  [demo_item 1 "http://x/1.png"; demo_item 2 "http://x/2.png";
   demo_item 3 "http://x/3.png"].

Definition batch_env (cs : list string) : Session.cycleEnv :=
  Session.mkEnv false true 2000 20 true 2000 (fun _ => 0)
    (Session.FetchResolved None) "text" (Some batch3) true
    (LlmClient.RawText (Some (LlmClient.JArr (map LlmClient.JStr cs))))
    false Session.EditOk (Some "m1") Session.EditOk (Some "m2") 9.





(** ** Batched commentary and its caller *)

Section Batch.

Import Session.

Lemma parseCommentaries_some parsed cs :
  LlmClient.parseCommentaries parsed = Some cs <->
  exists elems,
    parsed = Some (LlmClient.JArr elems)
    /\ existsb LlmClient.not_a_string elems = false
    /\ cs = map LlmClient.string_of elems.
Proof.
  unfold LlmClient.parseCommentaries. split.
  - destruct parsed as [[| | | |elems|]|]; try discriminate.
    destruct (existsb LlmClient.not_a_string elems) eqn:E; [discriminate |].
    intros [= <-]. by exists elems.
  - intros (elems & -> & E & ->). by rewrite E.
Qed.

(** What the session looks like right after a refill whose commentaries
    were rejected: counted, both queues empty, nothing else touched. *)
Definition afterDiscard (s : t) : t :=
  set_commentaryQueue [] (set_mediaBatchQueue [] (set_postCycleCount (S (postCycleCount s)) s)).

Definition tagsToFetch (s : t) : list string :=
  match currentRule34Tags (ident s) with
  | [] => sourceList (ident s)
  | _ :: _ => currentRule34Tags (ident s)
  end.

Lemma selectNext_discards env s batch :
  characterType (ident s) = "fictional" ->
  both_nonempty s = false ->
  fetchedMediaBatch env = Some batch ->
  batch <> [] ->
  (forall cs,
      LlmClient.generateBatchCommentary (modelAvailable env) true batch (generated env)
      = Some cs -> length cs <> length batch) ->
  selectNext env s
  = mkSelected (afterDiscard s)
               [EvFetchMediaBatch (tagsToFetch s); EvGenerateBatch (length batch)]
               None None.
Proof.
  intros Hty Hq Hb Hne Hbad.
  unfold selectNext.
  change (both_nonempty (set_postCycleCount (S (postCycleCount s)) s))
    with (both_nonempty s). rewrite Hq.
  unfold refill. simpl. rewrite Hty.
  destruct (decide ("fictional" = "real")) as [E|_]; [discriminate E |].
  destruct (decide ("fictional" = "fictional")) as [_|E]; [| by destruct E].
  unfold refillFictional. rewrite Hb. simpl.
  destruct batch as [|m rest]; [by destruct Hne |].
  simpl.
  destruct (LlmClient.generateBatchCommentary (modelAvailable env) true (m :: rest)
              (generated env)) as [cs|] eqn:Eg.
  - specialize (Hbad cs eq_refl).
    destruct (Nat.eqb_spec (length cs) (S (length rest))) as [E|_];
      [by destruct Hbad |].
    reflexivity.
  - reflexivity.
Qed.

Lemma selectNext_refill_events env s :
  both_nonempty s = false ->
  sel_events (selectNext env s)
  = rf_events (refill env (set_postCycleCount (S (postCycleCount s)) s)).
Proof.
  intros Hq.
  destruct (selectNext_cases env s) as [[E _]|[_ [(item & c & Hs)|Hs]]].
  - congruence.
  - by rewrite Hs.
  - rewrite Hs. unfold fromQueues.
    destruct (both_nonempty (rf_session _)); [| reflexivity].
    by destruct (dequeue _) as [[s1 m] c].
Qed.

Lemma refill_fictional_requests env s :
  characterType (ident s) = "fictional" ->
  exists rest, rf_events (refill env s) = EvFetchMediaBatch (tagsToFetch s) :: rest.
Proof.
  intros Hty. unfold refill. simpl. rewrite Hty.
  destruct (decide ("fictional" = "real")) as [E|_]; [discriminate E |].
  destruct (decide ("fictional" = "fictional")) as [_|E]; [| by destruct E].
  unfold refillFictional.
  destruct (default [] (fetchedMediaBatch env)); simpl; eexists; reflexivity.
Qed.

(** A cycle that passes its guards and the time check is the selection
    followed by the delivery. *)
Lemma cycle_body env s :
  isActive s = true ->
  Media.truthy_opt (dmChannelId s) = true ->
  dmFetched env = true ->
  (ceilMinutes (nowCheck env - startTime (ident s)) < remainingTime env)%Z ->
  executeNextActionCycle env s
  = ((deliver env (selectNext env s)).1,
     clearIfSet (actionLoopTimerId s) ++ sel_events (selectNext env s)
     ++ (deliver env (selectNext env s)).2).
Proof.
  intros Hact Hdm Hf Ht. unfold executeNextActionCycle.
  rewrite Hact, Hdm, Hf. simpl.
  destruct (Z.leb_spec (remainingTime env)
              (ceilMinutes (nowCheck env - startTime (ident s)))); [lia |].
  by destruct (deliver env (selectNext env s)).
Qed.

End Batch.

(** C7 as stated, first half: the batched generation yields commentaries
    only when there are exactly as many as media items. *)
Definition batch_generation_checks_count : Prop :=
  forall (model plugin : bool) (items : list Media.mediaItem)
         (g : LlmClient.generation) (cs : list string),
    LlmClient.generateBatchCommentary model plugin items g = Some cs ->
    length cs = length items.

(** C7, counterexample.  For a batch of three items and a generated text
    that parses into two strings, [generateBatchCommentary] returns the two
    strings, not null. *)
Lemma batch_generation_returns_short_array :
  LlmClient.generateBatchCommentary true true batch3
    (LlmClient.RawText (Some (LlmClient.JArr [LlmClient.JStr "c1"; LlmClient.JStr "c2"])))
  = Some ["c1"; "c2"]
  /\ ~ batch_generation_checks_count.
Proof.
  assert (H : LlmClient.generateBatchCommentary true true batch3
                (LlmClient.RawText
                   (Some (LlmClient.JArr [LlmClient.JStr "c1"; LlmClient.JStr "c2"])))
              = Some ["c1"; "c2"]) by reflexivity.
  split; [exact H |].
  intros Hclaim. specialize (Hclaim _ _ _ _ _ H). discriminate Hclaim.
Qed.

(** C7, amended.  The batched generation returns commentaries exactly when
    a model is available, the batch is not empty and the generated text
    parses into an array of strings, of whatever length; it returns null
    otherwise.  The count is checked by the caller: in a cycle of an active
    fictional session that has to refill, if the fetched batch is not empty
    and the generation returns null or a number of commentaries other than
    the number of fetched items, both queues end empty, nothing is delivered
    and nothing is recorded as sent, the session stays active with the next
    cycle scheduled at the regular interval, and that next cycle, when it
    passes its time check, asks for a batch again. *)
Theorem batch_mismatch_discards_whole_batch :
  (forall (model plugin : bool) (items : list Media.mediaItem)
          (g : LlmClient.generation) (cs : list string),
      LlmClient.generateBatchCommentary model plugin items g = Some cs <->
      model = true /\ plugin = true /\ items <> []
      /\ exists elems,
           g = LlmClient.RawText (Some (LlmClient.JArr elems))
           /\ existsb LlmClient.not_a_string elems = false
           /\ cs = map LlmClient.string_of elems)
  /\ (forall env s batch,
        Session.isActive s = true ->
        Media.truthy_opt (Session.dmChannelId s) = true ->
        Session.dmFetched env = true ->
        (Session.ceilMinutes (Session.nowCheck env - Session.startTime (Session.ident s))
         < Session.remainingTime env)%Z ->
        Session.characterType (Session.ident s) = "fictional" ->
        Session.both_nonempty s = false ->
        Session.fetchedMediaBatch env = Some batch ->
        batch <> [] ->
        (forall cs,
            LlmClient.generateBatchCommentary (Session.modelAvailable env) true batch
              (Session.generated env) = Some cs ->
            length cs <> length batch) ->
        let r := Session.executeNextActionCycle env s in
        Session.mediaBatchQueue r.1 = []
        /\ Session.commentaryQueue r.1 = []
        /\ List.filter Session.is_delivery r.2 = []
        /\ Session.lastSentMediaInfo r.1 = Session.lastSentMediaInfo s
        /\ Session.postedMediaUrls r.1 = Session.postedMediaUrls s
        /\ Session.isActive r.1 = true
        /\ List.filter Session.is_schedule r.2
           = [Session.EvSetTimeout (Session.timerHandle env) Session.ACTION_INTERVAL_MS]
        /\ (forall env',
              Session.dmFetched env' = true ->
              (Session.ceilMinutes
                 (Session.nowCheck env' - Session.startTime (Session.ident s))
               < Session.remainingTime env')%Z ->
              In (Session.EvFetchMediaBatch (tagsToFetch s))
                 (Session.executeNextActionCycle env' r.1).2)).
Proof.
  split.
  - intros model plugin items g cs. unfold LlmClient.generateBatchCommentary.
    destruct model, plugin, items as [|i items]; simpl;
      try (split; [discriminate | intros (? & ? & ? & _); congruence]).
    destruct g as [|parsed].
    + split; [discriminate | intros (_ & _ & _ & elems & Hg & _); discriminate].
    + rewrite parseCommentaries_some. split.
      * intros (elems & -> & E & ->). repeat split; try done. by exists elems.
      * intros (_ & _ & _ & elems & [= ->] & E & ->). by exists elems.
  - intros env s batch Hact Hdm Hf Ht Hty Hq Hb Hne Hbad r.
    assert (Hr : r = ((Session.startActionLoopTimer (Session.timerHandle env)
                         (afterDiscard s)).1,
                      Session.clearIfSet (Session.actionLoopTimerId s)
                      ++ [Session.EvFetchMediaBatch (tagsToFetch s);
                          Session.EvGenerateBatch (length batch)]
                      ++ (Session.startActionLoopTimer (Session.timerHandle env)
                            (afterDiscard s)).2)).
    { unfold r. rewrite (cycle_body env s Hact Hdm Hf Ht).
      by rewrite (selectNext_discards env s batch Hty Hq Hb Hne Hbad). }
    assert (Hs : r.1 = Session.set_actionLoopTimerId (Some (Session.timerHandle env))
                         (afterDiscard s)).
    { rewrite Hr. unfold Session.startActionLoopTimer. simpl. by rewrite Hact. }
    rewrite Hs. simpl.
    split; [reflexivity |]. split; [reflexivity |].
    split.
    { rewrite Hr. unfold Session.startActionLoopTimer. simpl. rewrite Hact. simpl.
      by destruct (Session.actionLoopTimerId s). }
    split; [reflexivity |]. split; [reflexivity |]. split; [exact Hact |].
    split.
    { rewrite Hr. unfold Session.startActionLoopTimer. simpl. rewrite Hact. simpl.
      by destruct (Session.actionLoopTimerId s). }
    intros env' Hf' Ht'.
    set (s' := Session.set_actionLoopTimerId (Some (Session.timerHandle env))
                 (afterDiscard s)).
    rewrite (cycle_body env' s' Hact Hdm Hf' Ht').
    rewrite (selectNext_refill_events env' s' eq_refl).
    destruct (refill_fictional_requests env'
                (Session.set_postCycleCount (S (Session.postCycleCount s')) s') Hty)
      as (rest & ->).
    apply in_or_app. right. apply in_or_app. left. by left.
Qed.

(** Three items fetched, two commentaries generated. *)
Lemma batch_mismatch_discards_whole_batch_witness :
  Session.mediaBatchQueue (Session.executeNextActionCycle (batch_env ["c1"; "c2"]) demo_session).1 = []
  /\ Session.commentaryQueue (Session.executeNextActionCycle (batch_env ["c1"; "c2"]) demo_session).1 = [].
Proof.
  destruct (proj2 batch_mismatch_discards_whole_batch
              (batch_env ["c1"; "c2"]) demo_session batch3
              eq_refl eq_refl eq_refl ltac:(vm_compute; reflexivity) eq_refl eq_refl
              eq_refl ltac:(discriminate)
              ltac:(intros cs H; vm_compute in H; injection H as <-; simpl; lia))
    as (Hm & Hc & _).
  split; [exact Hm | exact Hc].
Defined.

(** ** Paginated sources *)

Section Pagination.

Import Session.

Lemma never_requests_nil sub : never_requests sub [].
Proof. intros c H. destruct H. Qed.

Lemma never_requests_app sub e1 e2 :
  never_requests sub e1 -> never_requests sub e2 -> never_requests sub (e1 ++ e2).
Proof.
  intros H1 H2 c Hin. apply in_app_or in Hin as [Hin|Hin]; [by eapply H1 | by eapply H2].
Qed.

Lemma never_requests_clearIfSet sub h : never_requests sub (clearIfSet h).
Proof. destruct h; intros c Hin; simpl in Hin; [destruct Hin as [H|[]]; discriminate | destruct Hin]. Qed.

(** A refill call for a source that is fetching or exhausted does nothing. *)
Lemma fetchNextRedditPage_skips sub s st :
  redditFetchState s !! sub = Some st ->
  isFetching st = true \/ allFetched st = true ->
  fetchNextRedditPage sub s = (false, s, []).
Proof.
  intros Hst Hor. unfold fetchNextRedditPage.
  destruct (negb (isActive s) || negb (Media.truthy sub)); [reflexivity |].
  rewrite Hst.
  destruct Hor as [-> | ->]; [reflexivity | by rewrite orb_true_r].
Qed.

Lemma fetchNextRedditPage_quiet sub sub' s :
  exhausted sub s ->
  exhausted sub (fetchNextRedditPage sub' s).1.2
  /\ never_requests sub (fetchNextRedditPage sub' s).2.
Proof.
  intros Hex. unfold fetchNextRedditPage.
  destruct (negb (isActive s) || negb (Media.truthy sub'));
    [split; [exact Hex | apply never_requests_nil] |].
  destruct (redditFetchState s !! sub') as [st|] eqn:Est;
    [| split; [exact Hex | apply never_requests_nil]].
  destruct (isFetching st || allFetched st) eqn:Eg;
    [split; [exact Hex | apply never_requests_nil] |].
  apply orb_false_elim in Eg as [_ Hnot].
  assert (Hne : sub' <> sub).
  { intros ->. specialize (Hex st Est). congruence. }
  split.
  - intros st'. simpl. rewrite lookup_insert_ne by exact Hne. apply Hex.
  - intros c [H|[]]. injection H as H _. by apply Hne.
Qed.

Lemma alter_keeps_exhausted (f : fetchState -> fetchState) sub sub'
    (m : gmap string fetchState) :
  (forall st, allFetched st = true -> allFetched (f st) = true) ->
  (forall st, m !! sub = Some st -> allFetched st = true) ->
  forall st, alter f sub' m !! sub = Some st -> allFetched st = true.
Proof.
  intros Hf Hm st. rewrite lookup_alter. case_decide as E.
  - subst. destruct (m !! sub) as [st0|] eqn:E0; simpl; [| discriminate].
    intros [= <-]. apply Hf. by apply Hm.
  - apply Hm.
Qed.

Lemma advance_keeps next st : allFetched st = true -> allFetched (advance next st) = true.
Proof. intros H. unfold advance. simpl. rewrite H. by destruct (Media.truthy_opt next). Qed.

Lemma fetchSettled_quiet sub sub' o s :
  exhausted sub s -> exhausted sub (fetchSettled sub' o s).
Proof.
  intros Hex. unfold fetchSettled, exhausted.
  destruct o as [|[pg|]]; simpl.
  - apply alter_keeps_exhausted; [done |].
    apply alter_keeps_exhausted; [done | exact Hex].
  - destruct (isActive s); simpl.
    + destruct (posts pg); simpl.
      * apply alter_keeps_exhausted; [done |].
        apply alter_keeps_exhausted; [done | exact Hex].
      * apply alter_keeps_exhausted; [done |].
        apply alter_keeps_exhausted; [apply advance_keeps | exact Hex].
    + apply alter_keeps_exhausted; [done | exact Hex].
  - destruct (isActive s); simpl.
    + apply alter_keeps_exhausted; [done |].
      apply alter_keeps_exhausted; [done | exact Hex].
    + apply alter_keeps_exhausted; [done | exact Hex].
Qed.

Lemma endSession_quiet sub reason now s :
  exhausted sub s ->
  exhausted sub (endSession reason now s).1
  /\ never_requests sub (endSession reason now s).2.
Proof.
  intros Hex. unfold endSession. destruct (isActive s); simpl.
  - split; [intros st; simpl; rewrite lookup_empty; discriminate |].
    intros c Hin. simpl in Hin.
    destruct Hin as [H|[H|Hin]]; try discriminate.
    apply in_app_or in Hin as [Hin|Hin]; [by eapply never_requests_clearIfSet |].
    apply in_app_or in Hin as [Hin|Hin]; [by eapply never_requests_clearIfSet |].
    destruct Hin as [H|[]]; discriminate.
  - split; [exact Hex | apply never_requests_nil].
Qed.

Lemma startActionLoopTimer_quiet sub h s :
  exhausted sub s ->
  exhausted sub (startActionLoopTimer h s).1
  /\ never_requests sub (startActionLoopTimer h s).2.
Proof.
  intros Hex. unfold startActionLoopTimer. destruct (isActive s); simpl.
  - split; [exact Hex |].
    apply never_requests_app; [apply never_requests_clearIfSet |].
    intros c [H|[]]; discriminate.
  - split; [exact Hex | apply never_requests_nil].
Qed.

(** Traces without any page request. *)
Definition no_page_request (evs : list event) : Prop :=
  Forall (fun e => match e with EvRedditRequest _ _ => False | _ => True end) evs.

Lemma no_page_request_never sub evs : no_page_request evs -> never_requests sub evs.
Proof.
  intros H c Hin. unfold no_page_request in H. rewrite Forall_forall in H.
  apply list_elem_of_In in Hin. exact (H _ Hin).
Qed.

Lemma exhausted_same_state sub s s' :
  redditFetchState s' = redditFetchState s -> exhausted sub s -> exhausted sub s'.
Proof. unfold exhausted. by intros ->. Qed.

Lemma refillReal_quiet sub env s :
  exhausted sub s ->
  exhausted sub (rf_session (refillReal env s))
  /\ never_requests sub (rf_events (refillReal env s)).
Proof.
  intros Hex. unfold refillReal.
  destruct (selectFromPool _ _ _ _ _) as [first k1].
  assert (Hmid : forall x : t * list event * option Media.mediaItem,
             exhausted sub x.1.1 -> never_requests sub x.1.2 ->
             let r := (let '(s1, ev1, candidate) := x in
                       let llm := match candidate with
                                  | Some _ => Some (singleCommentary env)
                                  | None => None
                                  end in
                       match firstEligible s1 with
                       | Some sub0 =>
                           let '(_, s2, ev2) := fetchNextRedditPage sub0 s1 in
                           mkRefilled s2 (ev1 ++ ev2) candidate llm
                       | None => mkRefilled s1 ev1 candidate llm
                       end) in
             exhausted sub (rf_session r) /\ never_requests sub (rf_events r)).
  { intros [[s1 ev1] cand] Hx Hn; simpl in Hx, Hn.
    destruct (firstEligible s1) as [sub0|]; simpl; [| by split].
    destruct (fetchNextRedditPage_quiet sub sub0 s1 Hx) as [Hx2 Hn2].
    destruct (fetchNextRedditPage sub0 s1) as [[b s2] ev2]; simpl in *.
    split; [exact Hx2 | by apply never_requests_app]. }
  apply Hmid.
  - destruct first as [c|]; [exact Hex |].
    destruct (firstEligible s) as [sub0|]; [| exact Hex].
    destruct (fetchNextRedditPage_quiet sub sub0 s Hex) as [Hx2 _].
    destruct (fetchNextRedditPage sub0 s) as [[started s'] ev]; simpl in *.
    destruct started; simpl; [by apply fetchSettled_quiet | exact Hx2].
  - destruct first as [c|]; [apply never_requests_nil |].
    destruct (firstEligible s) as [sub0|]; [| apply never_requests_nil].
    destruct (fetchNextRedditPage_quiet sub sub0 s Hex) as [_ Hn2].
    destruct (fetchNextRedditPage sub0 s) as [[started s'] ev]; simpl in *.
    by destruct started.
Qed.

Lemma refillFictional_quiet sub env s :
  exhausted sub s ->
  exhausted sub (rf_session (refillFictional env s))
  /\ never_requests sub (rf_events (refillFictional env s)).
Proof.
  intros Hex. unfold refillFictional.
  destruct (default [] (fetchedMediaBatch env)) as [|m batch]; simpl.
  - split; [exact Hex |]. apply no_page_request_never. by repeat constructor.
  - split; [| apply no_page_request_never; by repeat constructor].
    eapply exhausted_same_state; [| exact Hex].
    destruct (LlmClient.generateBatchCommentary _ _ _ _) as [cs|]; [| reflexivity].
    by destruct (_ =? _).
Qed.

Lemma refill_quiet sub env s :
  exhausted sub s ->
  exhausted sub (rf_session (refill env s))
  /\ never_requests sub (rf_events (refill env s)).
Proof.
  intros Hex. unfold refill. simpl.
  destruct (decide _); [by apply refillReal_quiet |].
  destruct (decide _); [by apply refillFictional_quiet |].
  split; [exact Hex | apply never_requests_nil].
Qed.

Lemma dequeue_fetchState s : redditFetchState (dequeue s).1.1 = redditFetchState s.
Proof.
  unfold dequeue. by destruct (mediaBatchQueue s), (commentaryQueue s).
Qed.

Lemma fromQueues_quiet sub r :
  exhausted sub (rf_session r) -> never_requests sub (rf_events r) ->
  exhausted sub (sel_session (fromQueues r))
  /\ never_requests sub (sel_events (fromQueues r)).
Proof.
  intros Hx Hn. unfold fromQueues.
  destruct (both_nonempty (rf_session r)); [| by split].
  pose proof (dequeue_fetchState (rf_session r)) as Hd.
  destruct (dequeue (rf_session r)) as [[s1 m] c]; simpl in *.
  split; [by eapply exhausted_same_state | exact Hn].
Qed.

Lemma selectNext_quiet sub env s :
  exhausted sub s ->
  exhausted sub (sel_session (selectNext env s))
  /\ never_requests sub (sel_events (selectNext env s)).
Proof.
  intros Hex.
  set (s0 := set_postCycleCount (S (postCycleCount s)) s).
  assert (Hex0 : exhausted sub s0) by exact Hex.
  destruct (refill_quiet sub env s0 Hex0) as [Hx Hn].
  destruct (selectNext_cases env s) as [[_ Hs]|[_ [(item & c & Hs)|Hs]]]; rewrite Hs.
  - pose proof (dequeue_fetchState s0) as Hd. fold s0.
    destruct (dequeue s0) as [[s1 m] c]; simpl in *.
    split; [by eapply exhausted_same_state | apply never_requests_nil].
  - by split.
  - by apply fromQueues_quiet.
Qed.

Lemma deliverCommentary_quiet env c s :
  redditFetchState (deliverCommentary env c s).1 = redditFetchState s
  /\ no_page_request (deliverCommentary env c s).2.
Proof.
  unfold deliverCommentary, no_page_request.
  destruct (Media.truthy_opt (currentCommentaryMessageId s)) eqn:E; simpl.
  - destruct (commentaryEdit env); simpl; rewrite ?E; simpl;
      try destruct (commentarySend env); simpl; split; by repeat constructor.
  - rewrite E. destruct (commentarySend env); simpl; split; by repeat constructor.
Qed.

Lemma deliverMedia_quiet env m s :
  redditFetchState (deliverMedia env m s).1 = redditFetchState s
  /\ no_page_request (deliverMedia env m s).2.
Proof.
  unfold deliverMedia, no_page_request.
  destruct (negb (Media.truthy (Media.url m))); [split; by repeat constructor |].
  destruct (Media.truthy_opt (currentMediaMessageId s)) eqn:E; simpl.
  - destruct (mediaEdit env); simpl; rewrite ?E; simpl;
      try destruct (mediaSend env); simpl; split; by repeat constructor.
  - rewrite E. destruct (mediaSend env); simpl; split; by repeat constructor.
Qed.

Lemma deliver_quiet sub env sel :
  exhausted sub (sel_session sel) ->
  exhausted sub (deliver env sel).1 /\ never_requests sub (deliver env sel).2.
Proof.
  intros Hex. unfold deliver.
  destruct (mediaToSend sel) as [m|]; [| by apply startActionLoopTimer_quiet].
  destruct (commentaryToSend sel) as [c|]; [| by apply startActionLoopTimer_quiet].
  destruct (Media.truthy c); [| by apply startActionLoopTimer_quiet].
  destruct (embedThrows env).
  { split; [exact Hex | apply no_page_request_never; by repeat constructor]. }
  destruct (deliverCommentary_quiet env c
              (set_lastSentMediaInfo (Some m) (sel_session sel))) as [H2 N2].
  destruct (deliverCommentary env c _) as [s2 ev2].
  destruct (deliverMedia_quiet env m s2) as [H3 N3].
  destruct (deliverMedia env m s2) as [s3 ev3].
  assert (Hex3 : exhausted sub s3).
  { eapply exhausted_same_state; [| exact Hex]. simpl in *. by rewrite H3, H2. }
  destruct (startActionLoopTimer_quiet sub (timerHandle env) s3 Hex3) as [H4 N4].
  destruct (startActionLoopTimer (timerHandle env) s3) as [s4 ev4]; simpl in *.
  split; [exact H4 |].
  apply never_requests_app; [by apply no_page_request_never |].
  apply never_requests_app; [by apply no_page_request_never | exact N4].
Qed.

Lemma cycle_quiet sub env s :
  exhausted sub s ->
  exhausted sub (executeNextActionCycle env s).1
  /\ never_requests sub (executeNextActionCycle env s).2.
Proof.
  intros Hex. unfold executeNextActionCycle.
  destruct (isActive s); simpl; [| split; [exact Hex | apply never_requests_nil]].
  destruct (Media.truthy_opt (dmChannelId s)); simpl;
    [| split; [exact Hex | apply never_requests_nil]].
  destruct (dmFetched env); simpl; [| by apply endSession_quiet].
  destruct (_ <=? _)%Z.
  - destruct (endSession_quiet sub "Ran out of time" (nowEnd env) s Hex) as [Hx Hn].
    destruct (endSession "Ran out of time" (nowEnd env) s) as [s1 ev]; simpl in *.
    split; [exact Hx |].
    intros c [H|Hin]; [discriminate | by eapply Hn].
  - destruct (selectNext_quiet sub env s Hex) as [Hx Hn].
    destruct (deliver_quiet sub env (selectNext env s) Hx) as [Hx' Hn'].
    destruct (deliver env (selectNext env s)) as [s1 ev]; simpl in *.
    split; [exact Hx' |].
    apply never_requests_app; [apply never_requests_clearIfSet |].
    by apply never_requests_app.
Qed.

Lemma exec_quiet sub o s :
  exhausted sub s ->
  exhausted sub (exec o s).1 /\ never_requests sub (exec o s).2.
Proof.
  intros Hex. destruct o as [sub'|sub' out|env|h| |reason now]; simpl.
  - destruct (fetchNextRedditPage_quiet sub sub' s Hex) as [Hx Hn].
    by destruct (fetchNextRedditPage sub' s) as [[b s1] ev].
  - split; [by apply fetchSettled_quiet | apply never_requests_nil].
  - by apply cycle_quiet.
  - by apply startActionLoopTimer_quiet.
  - split; [| apply never_requests_nil].
    unfold recordTrigger. by destruct (lastSentMediaInfo s).
  - by apply endSession_quiet.
Qed.

Lemma execAll_quiet sub ops : forall s,
  exhausted sub s ->
  exhausted sub (execAll ops s).1 /\ never_requests sub (execAll ops s).2.
Proof.
  induction ops as [|o ops IH]; intros s Hex; simpl.
  - split; [exact Hex | apply never_requests_nil].
  - destruct (exec_quiet sub o s Hex) as [Hx Hn].
    destruct (exec o s) as [s1 ev1]; simpl in *.
    destruct (IH s1 Hx) as [Hx2 Hn2].
    destruct (execAll ops s1) as [s2 ev2]; simpl in *.
    split; [exact Hx2 | by apply never_requests_app].
Qed.

(** Every way in which a request settles other than a non-empty page with a
    further cursor exhausts the source. *)
Definition exhausting (o : fetchOutcome) : Prop :=
  match o with
  | FetchThrows => True
  | FetchResolved None => True
  | FetchResolved (Some pg) => posts pg = [] \/ Media.truthy_opt (page_after pg) = false
  end.

Lemma fetchSettled_exhausts sub o s st :
  isActive s = true ->
  redditFetchState s !! sub = Some st ->
  exhausting o ->
  exists st',
    redditFetchState (fetchSettled sub o s) !! sub = Some st'
    /\ allFetched st' = true /\ isFetching st' = false.
Proof.
  intros Hact Hst Ho. unfold fetchSettled. rewrite Hact. simpl.
  destruct o as [|[pg|]]; simpl.
  - rewrite !lookup_alter_eq, Hst. simpl. by eexists.
  - destruct (posts pg) as [|p ps] eqn:Ep; simpl.
    + rewrite !lookup_alter_eq, Hst. simpl. by eexists.
    + simpl in Ho. destruct Ho as [Ho|Ho]; [congruence |].
      rewrite !lookup_alter_eq, Hst. unfold advance. simpl. rewrite Ho. by eexists.
  - rewrite !lookup_alter_eq, Hst. simpl. by eexists.
Qed.

End Pagination.

Definition real_plugin : Session.plugin :=
  Session.mkPlugin (Some "real") (Some ["subA"; "subB"]) None.

(** A session over two link-aggregation sources, set up by [startTimers]. *)
Definition real_session : Session.t :=
  Session.initFetchState
    (Session.setDmChannelId "dm1" (Session.new "sid" "u" real_plugin None 1000%Z)).

(** C8.  A refill call for a source whose state is fetching or exhausted
    returns false, leaves the session as it is and requests nothing.  A
    request that settles with an error, with no result, with an empty page
    or with a page that carries no further cursor leaves the source
    exhausted and no longer fetching.  From a session in which a source is
    exhausted, no run of refills, settlings, cycles, timer restarts, trigger
    clicks and end calls ever requests a page of that source, and the source
    stays exhausted until its state is dropped at the end of the session. *)
Theorem exhausted_source_is_never_refetched :
  (forall sub s st,
      Session.redditFetchState s !! sub = Some st ->
      Session.isFetching st = true \/ Session.allFetched st = true ->
      Session.fetchNextRedditPage sub s = (false, s, []))
  /\ (forall sub o s st,
        Session.isActive s = true ->
        Session.redditFetchState s !! sub = Some st ->
        exhausting o ->
        Session.exhausted sub (Session.fetchSettled sub o s)
        /\ exists st',
             Session.redditFetchState (Session.fetchSettled sub o s) !! sub = Some st'
             /\ Session.allFetched st' = true /\ Session.isFetching st' = false)
  /\ (forall sub s ops,
        Session.exhausted sub s ->
        Session.exhausted sub (Session.execAll ops s).1
        /\ Session.never_requests sub (Session.execAll ops s).2).
Proof.
  split; [exact fetchNextRedditPage_skips |].
  split; [| intros sub s ops; apply execAll_quiet].
  intros sub o s st Hact Hst Ho.
  destruct (fetchSettled_exhausts sub o s st Hact Hst Ho) as (st' & Hl & Ha & Hf).
  split; [| by exists st'].
  intros st0 Hst0. congruence.
Qed.

(** The first source fails on its first request; later refill calls and a
    whole cycle leave it alone. *)
Definition subA_requested : Session.t :=
  (Session.fetchNextRedditPage "subA" real_session).1.2.

Definition subA_failed : Session.t :=
  Session.fetchSettled "subA" Session.FetchThrows subA_requested.

Lemma exhausted_source_is_never_refetched_witness :
  Session.redditFetchState subA_requested !! "subA"
  = Some (Session.mkFetch None true false 0)
  /\ Session.never_requests "subA"
       (Session.execAll [Session.OpFetch "subA";
                         Session.OpCycle (calm_env 3000 20 3000);
                         Session.OpFetch "subA"] subA_failed).2.
Proof.
  assert (Hst : Session.redditFetchState subA_requested !! "subA"
                = Some (Session.mkFetch None true false 0)) by (vm_compute; reflexivity).
  split; [exact Hst |].
  destruct exhausted_source_is_never_refetched as (_ & Hmark & Hstable).
  apply Hstable.
  exact (proj1 (Hmark "subA" Session.FetchThrows subA_requested _ eq_refl Hst I)).
Defined.

(** ** Page indices of the tag-indexed fetcher *)

Section Pages.

Import MediaFetcher.

Lemma drawPage_fresh attempted tape p rest :
  drawPage attempted tape = Some (p, rest) -> p ∉ attempted.
Proof.
  induction tape as [|r tape IH]; simpl; [discriminate |].
  destruct (decide (r ∈ attempted)); [exact IH |].
  by intros [= <- <-].
Qed.

(** The pages requested so far are pairwise distinct and all recorded as
    attempted. *)
Definition distinct_pages (r : batchRun) : Prop :=
  NoDup (requestedPages r)
  /\ forall p, p ∈ requestedPages r -> p ∈ attemptedPages r.

(** One unfolding of the loop. *)
Lemma batchLoop_succ search posted batchSize n r :
  batchLoop search posted batchSize (S n) r =
  if negb ((length (foundMediaBatch r) <? batchSize)%nat
           && (size (attemptedPages r) <=? MAX_FETCH_PAGE + 1)%nat)
  then Some r
  else if (MAX_FETCH_PAGE + 1 <=? size (attemptedPages r))%nat then Some r
       else match drawPage (attemptedPages r) (tapeLeft r) with
            | None => None
            | Some (randomPageId, rest) =>
                batchLoop search posted batchSize n
                  (mkRun (fold_left (addUnique batchSize posted)
                            (filter (fun p => suitable p = true)
                                    (default [] (search randomPageId)))
                            (foundMediaBatch r))
                         (requestedPages r ++ [randomPageId])
                         ({[randomPageId]} ∪ attemptedPages r)
                         rest)
            end.
Proof. reflexivity. Qed.

Lemma batchLoop_zero search posted batchSize r :
  batchLoop search posted batchSize 0 r = Some r.
Proof. simpl. by destruct (negb _). Qed.

Lemma batchLoop_distinct search posted batchSize n : forall r r',
  distinct_pages r ->
  batchLoop search posted batchSize n r = Some r' ->
  distinct_pages r'
  /\ length (requestedPages r') <= length (requestedPages r) + n.
Proof.
  induction n as [|n IH]; intros r r' Hinv.
  - rewrite batchLoop_zero. intros [= <-]. split; [exact Hinv | lia].
  - rewrite batchLoop_succ.
    destruct (negb _); [intros [= <-]; split; [exact Hinv | lia] |].
    destruct (MAX_FETCH_PAGE + 1 <=? size (attemptedPages r))%nat;
      [intros [= <-]; split; [exact Hinv | lia] |].
    destruct (drawPage (attemptedPages r) (tapeLeft r)) as [[p rest]|] eqn:Ed;
      [| discriminate].
    intros Hrun. apply IH in Hrun.
    + destruct Hrun as [Hd Hlen]. split; [exact Hd |].
      simpl in Hlen. rewrite length_app in Hlen. simpl in Hlen. lia.
    + destruct Hinv as [Hnd Hsub]. apply drawPage_fresh in Ed.
      split; simpl.
      * apply NoDup_app. split; [exact Hnd |].
        split; [| apply NoDup_singleton].
        intros q Hq Hq'. apply list_elem_of_singleton in Hq'. subst q.
        apply Ed. by apply Hsub.
      * intros q Hq. apply elem_of_app in Hq as [Hq|Hq].
        -- apply elem_of_union_r. by apply Hsub.
        -- apply list_elem_of_singleton in Hq. subst q.
           apply elem_of_union_l. by apply elem_of_singleton.
Qed.

Lemma fetchMediaBatch_distinct ctype search posted batchSize attempts tape r :
  fetchMediaBatch ctype search posted batchSize attempts tape = Some r ->
  NoDup (requestedPages r) /\ length (requestedPages r) <= attempts.
Proof.
  unfold fetchMediaBatch.
  assert (H0 : distinct_pages (mkRun [] [] ∅ tape)).
  { split; [apply NoDup_nil_2 | intros p Hp; by apply elem_of_nil in Hp]. }
  destruct (decide _).
  - intros Hrun. apply batchLoop_distinct in Hrun; [| exact H0].
    destruct Hrun as [[Hd _] Hlen]. split; [exact Hd | simpl in Hlen; lia].
  - intros [= <-]. simpl. split; [apply NoDup_nil_2 | lia].
Qed.

End Pages.

(** A tag search whose page 3 holds the three demo posts and whose other
    pages are empty. *)
Definition page3_only (p : nat) : option (list Media.post) :=
  if (p =? 3)%nat then Some (map Media.item_post batch3) else Some [].

Definition posted3 : gset string := list_to_set (map Media.url batch3).

(** C9 as stated, for the tag-indexed fetcher: of two consecutive refills of
    a session (the second draws where the first stopped), the second
    requests no page the first has requested. *)
Definition page_never_requested_again : Prop :=
  forall search posted1 posted2 batchSize attempts tape r1 r2,
    MediaFetcher.fetchMediaBatch "fictional" search posted1 batchSize attempts tape
      = Some r1 ->
    MediaFetcher.fetchMediaBatch "fictional" search posted2 batchSize attempts
      (MediaFetcher.tapeLeft r1) = Some r2 ->
    forall p, In p (MediaFetcher.requestedPages r1) ->
              ~ In p (MediaFetcher.requestedPages r2).

(** C9, counterexample.  The first refill draws page 3 and fills its batch
    there; once the three items are posted, the second refill draws page 3
    again and requests it again. *)
Lemma second_refill_requests_same_page :
  (exists r1 r2,
      MediaFetcher.fetchMediaBatch "fictional" page3_only ∅ 3 5 [3; 3; 1; 4; 0; 5]
        = Some r1
      /\ MediaFetcher.fetchMediaBatch "fictional" page3_only posted3 3 5
           (MediaFetcher.tapeLeft r1) = Some r2
      /\ MediaFetcher.requestedPages r1 = [3]
      /\ MediaFetcher.requestedPages r2 = [3; 1; 4; 0; 5])
  /\ ~ page_never_requested_again.
Proof.
  assert (H1 : MediaFetcher.fetchMediaBatch "fictional" page3_only ∅ 3 5 [3; 3; 1; 4; 0; 5]
               = Some (MediaFetcher.mkRun batch3 [3] {[3]} [3; 1; 4; 0; 5])).
  { vm_compute. reflexivity. }
  assert (H2 : exists att,
             MediaFetcher.fetchMediaBatch "fictional" page3_only posted3 3 5
               [3; 1; 4; 0; 5]
             = Some (MediaFetcher.mkRun [] [3; 1; 4; 0; 5] att [])).
  { eexists. vm_compute. reflexivity. }
  destruct H2 as [att H2].
  split.
  - eexists _, _. split; [exact H1 |]. simpl. split; [exact H2 |]. by split.
  - intros Hclaim.
    apply (Hclaim page3_only ∅ posted3 3 5 [3; 3; 1; 4; 0; 5] _ _ H1 H2 3);
      simpl; by left.
Qed.

(** C9, amended.  Within one call of the tag-indexed batch fetcher no page
    index is requested twice, and at most [maxPageAttempts] pages are
    requested; the attempted pages are not kept from one call to the next.
    For the cursor-based source, a refill of an idle source requests the
    cursor stored in its state; when the page comes back non-empty, the next
    refill requests exactly the cursor that came with the page, or nothing
    at all if the page carried none; so the request that follows a request
    for the start of the listing never asks for the start again. *)
Theorem page_and_cursor_use :
  (forall ctype search posted batchSize attempts tape r,
      MediaFetcher.fetchMediaBatch ctype search posted batchSize attempts tape = Some r ->
      NoDup (MediaFetcher.requestedPages r)
      /\ length (MediaFetcher.requestedPages r) <= attempts)
  /\ (forall sub s st pg,
        Session.isActive s = true ->
        Media.truthy sub = true ->
        Session.redditFetchState s !! sub = Some st ->
        Session.isFetching st = false ->
        Session.allFetched st = false ->
        Session.posts pg <> [] ->
        let s1 := (Session.fetchNextRedditPage sub s).1.2 in
        let s2 := Session.fetchSettled sub (Session.FetchResolved (Some pg)) s1 in
        (Session.fetchNextRedditPage sub s).2
          = [Session.EvRedditRequest sub (Session.after st)]
        /\ (Session.fetchNextRedditPage sub s2).2
           = (if Media.truthy_opt (Session.page_after pg)
              then [Session.EvRedditRequest sub (Session.page_after pg)]
              else [])
        /\ (Media.truthy_opt (Session.after st) = false ->
            ~ In (Session.EvRedditRequest sub (Session.after st))
                 (Session.fetchNextRedditPage sub s2).2)).
Proof.
  split; [exact fetchMediaBatch_distinct |].
  intros sub s st pg Hact Hsub Hst Hnf Hna Hposts s1 s2.
  assert (H1 : Session.fetchNextRedditPage sub s
               = (true,
                  Session.set_redditFetchState
                    (<[sub := Session.mark_fetching true st]> (Session.redditFetchState s)) s,
                  [Session.EvRedditRequest sub (Session.after st)])).
  { unfold Session.fetchNextRedditPage. by rewrite Hact, Hsub, Hst, Hnf, Hna. }
  assert (Hst2 : Session.redditFetchState s2 !! sub
                 = Some (Session.mkFetch (Session.page_after pg) false
                           (negb (Media.truthy_opt (Session.page_after pg)))
                           (S (Session.currentPage st)))).
  { unfold s2, s1. rewrite H1. unfold Session.fetchSettled. simpl. rewrite Hact. simpl.
    destruct (Session.posts pg) as [|p ps]; [by destruct Hposts |]. simpl.
    rewrite !lookup_alter_eq, lookup_insert_eq. simpl.
    unfold Session.advance. simpl. rewrite Hna.
    by destruct (Media.truthy_opt (Session.page_after pg)). }
  assert (Hact2 : Session.isActive s2 = true).
  { unfold s2, s1. rewrite H1. unfold Session.fetchSettled. simpl. rewrite Hact. simpl.
    by destruct (Session.posts pg). }
  assert (H2 : (Session.fetchNextRedditPage sub s2).2
               = (if Media.truthy_opt (Session.page_after pg)
                  then [Session.EvRedditRequest sub (Session.page_after pg)]
                  else [])).
  { unfold Session.fetchNextRedditPage. rewrite Hact2, Hsub, Hst2. simpl.
    by destruct (Media.truthy_opt (Session.page_after pg)). }
  split; [by rewrite H1 |]. split; [exact H2 |].
  intros Hstart. rewrite H2.
  destruct (Media.truthy_opt (Session.page_after pg)) eqn:E; [| intros []].
  intros [H|[]]. injection H as H. rewrite H in E. congruence.
Qed.

Lemma page_and_cursor_use_witness :
  (exists r,
      MediaFetcher.fetchMediaBatch "fictional" page3_only posted3 3 5 [3; 3; 1; 4; 0; 5]
        = Some r
      /\ MediaFetcher.requestedPages r = [3; 1; 4; 0; 5]
      /\ NoDup (MediaFetcher.requestedPages r))
  /\ (Session.fetchNextRedditPage "subA" real_session).2
     = [Session.EvRedditRequest "subA" None].
Proof.
  split.
  - assert (H : exists att tp,
               MediaFetcher.fetchMediaBatch "fictional" page3_only posted3 3 5
                 [3; 3; 1; 4; 0; 5]
               = Some (MediaFetcher.mkRun [] [3; 1; 4; 0; 5] att tp)).
    { eexists _, _. vm_compute. reflexivity. }
    destruct H as (att & tp & H).
    eexists. split; [exact H |]. split; [reflexivity |].
    exact (proj1 (proj1 page_and_cursor_use _ _ _ _ _ _ _ H)).
  - exact (proj1 (proj2 page_and_cursor_use "subA" real_session
                    (Session.mkFetch None false false 0)
                    (Session.mkPage [Session.mkRedditPost
                                       (Media.item_post (demo_item 1 "http://x/1.png"))
                                       false false false None] (Some "t3_x"))
                    eq_refl eq_refl ltac:(vm_compute; reflexivity) eq_refl eq_refl
                    ltac:(discriminate))).
Defined.

(** ** The coordinator *)

Section Coordinator.

Import SessionManager.

Lemma new_isActive sid uid p d now : Session.isActive (Session.new sid uid p d now) = true.
Proof. reflexivity. Qed.

Lemma new_userId sid uid p d now :
  Session.userId (Session.ident (Session.new sid uid p d now)) = uid.
Proof. reflexivity. Qed.

Lemma createSession_owned a p (reg : gmap string Z) owner :
  reg !! a_userId a = Some owner ->
  getThrows a = false ->
  createSession a p reg = (p, reg, Refused, []).
Proof.
  intros Hreg Hget. unfold createSession, createSession_check.
  destruct (clientOk a); simpl; [| reflexivity].
  by rewrite Hget, Hreg.
Qed.


(** A call that resolves to a Session leaves the user registered to this
    shard, so that any later call for the same user, on any shard, whose
    registry read succeeds is refused. *)
Lemma createSession_registers a p (reg : gmap string Z) p' reg' r ev :
  createSession a p reg = (p', reg', Created r, ev) ->
  reg' !! a_userId a = Some (shardId p).
Proof.
  unfold createSession, createSession_check.
  destruct (clientOk a); simpl; [| discriminate].
  destruct (getThrows a); simpl; [discriminate |].
  destruct (reg !! a_userId a); simpl; [discriminate |].
  unfold createSession_register.
  destruct (setThrows a); simpl.
  - destruct (endObject _ _ _ _ _ _) as [[p2 reg2] ev2]. discriminate.
  - intros [= <- <- <- <-]. apply lookup_insert_eq.
Qed.

Lemma createSession_sequential a p (reg : gmap string Z) p' reg' r ev b q :
  createSession a p reg = (p', reg', Created r, ev) ->
  a_userId b = a_userId a ->
  getThrows b = false ->
  createSession b q reg' = (q, reg', Refused, []).
Proof.
  intros Hfirst Huser Hget.
  apply createSession_registers in Hfirst.
  eapply createSession_owned; [rewrite Huser; exact Hfirst | exact Hget].
Qed.

End Coordinator.






(** Two shards, an empty registry, and one [createSession] call for the
    same user on each. *)
Definition race_args (uuid : string) : SessionManager.callArgs :=
  SessionManager.mkArgs true "u" demo_plugin None uuid 1000 1000 false false false.

Definition two_shards : SessionManager.system :=
  SessionManager.mkSystem ∅
    [SessionManager.mkProc 0 ∅ []; SessionManager.mkProc 1 ∅ []]
    [(0, race_args "a", SessionManager.NotStarted);
     (1, race_args "b", SessionManager.NotStarted)].

(** The same two calls issued in one process. *)
Definition one_shard : SessionManager.system :=
  SessionManager.mkSystem ∅
    [SessionManager.mkProc 0 ∅ []]
    [(0, race_args "a", SessionManager.NotStarted);
     (0, race_args "b", SessionManager.NotStarted)].

(** C1.  The code at the race.  When the two registry reads are answered
    before either registry write, both calls resolve to a Session: two
    active Session objects exist for the user, one per shard, and the
    registry names only the shard that wrote last.  In a single process the
    same schedule builds two Session objects, of which the local map keeps
    one.  Run one after the other, the same calls give one Session and one
    refusal. *)
Theorem concurrent_createSession_both_succeed :
  SessionManager.successes (SessionManager.run [0; 1; 0; 1] two_shards) = 2
  /\ SessionManager.active_anywhere "u" (SessionManager.run [0; 1; 0; 1] two_shards) = 2
  /\ SessionManager.sys_registry (SessionManager.run [0; 1; 0; 1] two_shards) !! "u"
     = Some 1%Z
  /\ SessionManager.successes (SessionManager.run [0; 1; 0; 1] one_shard) = 2
  /\ SessionManager.active_anywhere "u" (SessionManager.run [0; 1; 0; 1] one_shard) = 2
  /\ SessionManager.successes (SessionManager.run [0; 0; 1; 1] two_shards) = 1
  /\ SessionManager.active_anywhere "u" (SessionManager.run [0; 0; 1; 1] two_shards) = 1.
Proof. repeat split; vm_compute; reflexivity. Qed.

(** * Further properties of the code *)

(** ** Quota store: reads, writes and how they compose *)

Section UserDataMore.

Import UserData.
Local Open Scope Z_scope.

(** What a read of [u] reports when Redis works. *)
Definition view (u : string) (db : gmap string storedData) : userData :=
  (getUserDataInternal no_faults u db).1.

Lemma backfill_stringify d : backfill (stringify d) = d.
Proof. by destruct d. Qed.

Lemma read_saved u d (db : gmap string storedData) :
  getUserDataInternal no_faults u (<[u := stringify d]> db)
  = (d, <[u := stringify d]> db).
Proof.
  unfold getUserDataInternal. simpl. rewrite lookup_insert_eq.
  by rewrite backfill_stringify.
Qed.

Lemma read_settles u (db : gmap string storedData) :
  getUserDataInternal no_faults u (getUserDataInternal no_faults u db).2
  = getUserDataInternal no_faults u db.
Proof.
  unfold getUserDataInternal. simpl.
  destruct (db !! u) as [j|] eqn:E; simpl.
  - by rewrite E.
  - rewrite lookup_insert_eq. by rewrite backfill_stringify.
Qed.

Lemma read_other u v (db : gmap string storedData) :
  u <> v -> (getUserDataInternal no_faults u db).2 !! v = db !! v.
Proof.
  intros Hne. unfold getUserDataInternal. simpl.
  destruct (db !! u); simpl; [reflexivity | by rewrite lookup_insert_ne].
Qed.

Lemma view_save u d (db : gmap string storedData) :
  view u (saveUserDataInternal no_faults u d db) = d.
Proof. unfold view, saveUserDataInternal. simpl. by rewrite read_saved. Qed.

Lemma save_other u v d (db : gmap string storedData) :
  u <> v -> saveUserDataInternal no_faults u d db !! v = db !! v.
Proof. intros Hne. unfold saveUserDataInternal. simpl. by rewrite lookup_insert_ne. Qed.

Lemma view_setUserTime u m (db : gmap string storedData) :
  view u (setUserTime no_faults u m db) = with_remaining (view u db) (Z.max 0 m).
Proof.
  unfold setUserTime, view at 2.
  destruct (getUserDataInternal no_faults u db) as [d db1]. simpl.
  apply view_save.
Qed.



Lemma mutation_other f u v m (db : gmap string storedData) :
  u <> v -> apply_mutation f u m db !! v = db !! v.
Proof.
  intros Hne.
  assert (Hread : (getUserDataInternal f u db).2 !! v = db !! v).
  { unfold getUserDataInternal. destruct (get_throws f); [reflexivity |].
    destruct (db !! u); [reflexivity |].
    destruct (init_set_throws f); simpl; [reflexivity | by rewrite lookup_insert_ne]. }
  assert (Hsave : forall d (db1 : gmap string storedData),
             saveUserDataInternal f u d db1 !! v = db1 !! v).
  { intros d db1. unfold saveUserDataInternal.
    destruct (save_throws f); [reflexivity | by rewrite lookup_insert_ne]. }
  destruct m; simpl; unfold updateUserTime, setUserTime, addUserTime;
    destruct (getUserDataInternal f u db) as [d db1]; simpl in *;
    by rewrite Hsave.
Qed.

End UserDataMore.

(** X1.  With Redis working, a read after [setUserTime(u, m)] reports
    [max(0, m)] minutes and the same premium flag, notes and summary as
    before; and no time mutation of one user, whatever Redis does, changes
    the document of another user. *)
Theorem setUserTime_read_back :
  (forall u m (db : gmap string UserData.storedData),
      (UserData.getUserTime UserData.no_faults u
         (UserData.setUserTime UserData.no_faults u m db)).1 = Z.max 0 m
      /\ UserData.isPremium (view u (UserData.setUserTime UserData.no_faults u m db))
         = UserData.isPremium (view u db)
      /\ UserData.personalizationNotes
           (view u (UserData.setUserTime UserData.no_faults u m db))
         = UserData.personalizationNotes (view u db)
      /\ UserData.llmProfileSummary
           (view u (UserData.setUserTime UserData.no_faults u m db))
         = UserData.llmProfileSummary (view u db))
  /\ (forall f u v m (db : gmap string UserData.storedData),
        u <> v -> UserData.apply_mutation f u m db !! v = db !! v).
Proof.
  split; [| exact mutation_other].
  intros u m db.
  pose proof (view_setUserTime u m db) as Hv.
  assert (Ht : (UserData.getUserTime UserData.no_faults u
                  (UserData.setUserTime UserData.no_faults u m db)).1
               = UserData.remainingMinutes
                   (view u (UserData.setUserTime UserData.no_faults u m db))).
  { unfold UserData.getUserTime, view.
    by destruct (UserData.getUserDataInternal _ _ _). }
  rewrite Ht, Hv. by repeat split.
Qed.

Lemma setUserTime_read_back_witness :
  UserData.apply_mutation UserData.no_faults "u" (UserData.SetTime (-5)) ∅ !! "v"
  = (∅ : gmap string UserData.storedData) !! "v".
Proof. apply (proj2 setUserTime_read_back). discriminate. Defined.



(** X3.  When the Redis read throws and the write that follows succeeds, a
    time mutation stores a document computed from the defaults: the balance
    starts from the 20 default minutes, and the premium flag, the notes and
    the summary the user had are replaced by the defaults.  Granting premium
    under the same failure stores the default 20 minutes. *)
Theorem read_failure_resets_document :
  forall init u m (db : gmap string UserData.storedData),
    let f := UserData.mkFaults true init false in
    UserData.apply_mutation f u m db !! u
    = Some (UserData.stringify
              (UserData.with_remaining UserData.defaultData
                 match m with
                 | UserData.Update n => Z.max 0 (20 - n)
                 | UserData.SetTime n => Z.max 0 n
                 | UserData.AddTime n => (20 + Z.max 0 n)%Z
                 end))
    /\ UserData.isPremium (view u (UserData.apply_mutation f u m db)) = false
    /\ UserData.setPremiumStatus f u true db !! u
       = Some (UserData.stringify (UserData.with_premium UserData.defaultData true)).
Proof.
  intros init u m db f.
  assert (H : UserData.apply_mutation f u m db !! u
              = Some (UserData.stringify
                        (UserData.with_remaining UserData.defaultData
                           match m with
                           | UserData.Update n => Z.max 0 (20 - n)
                           | UserData.SetTime n => Z.max 0 n
                           | UserData.AddTime n => (20 + Z.max 0 n)%Z
                           end))).
  { destruct m; simpl;
      unfold UserData.updateUserTime, UserData.setUserTime, UserData.addUserTime,
        UserData.getUserDataInternal, UserData.saveUserDataInternal; simpl;
      by rewrite lookup_insert_eq. }
  split; [exact H |]. split.
  - unfold view, UserData.getUserDataInternal. simpl. by rewrite H.
  - unfold UserData.setPremiumStatus, UserData.getUserDataInternal,
      UserData.saveUserDataInternal. simpl. by rewrite lookup_insert_eq.
Qed.

Section UserDataProfile.

Import UserData.

Lemma view_setPremiumStatus u b (db : gmap string storedData) :
  view u (setPremiumStatus no_faults u b db) = with_premium (view u db) b.
Proof.
  unfold setPremiumStatus, view at 2.
  pose proof (read_settles u db) as Hs.
  destruct (getUserDataInternal no_faults u db) as [d db1]. simpl in *.
  destruct (Bool.eqb_spec (isPremium d) b) as [E|E].
  - unfold view. rewrite Hs. simpl. subst b. by destruct d.
  - apply view_save.
Qed.

Lemma view_setNotes u n (db : gmap string storedData) :
  view u (setUserPersonalizationNotes no_faults u n db)
  = with_notes (view u db) (default EmptyString n).
Proof.
  unfold setUserPersonalizationNotes, view at 2.
  pose proof (read_settles u db) as Hs.
  destruct (getUserDataInternal no_faults u db) as [d db1]. simpl in *.
  destruct (decide (Some (personalizationNotes d) = n)) as [E|E].
  - unfold view. rewrite Hs. simpl. subst n. by destruct d.
  - apply view_save.
Qed.

Lemma view_setSummary u t (db : gmap string storedData) :
  view u (setLlmProfileSummary no_faults u t db)
  = with_summary (view u db) (default EmptyString t).
Proof.
  unfold setLlmProfileSummary, view at 2.
  pose proof (read_settles u db) as Hs.
  destruct (getUserDataInternal no_faults u db) as [d db1]. simpl in *.
  destruct (decide (Some (llmProfileSummary d) = t)) as [E|E].
  - unfold view. rewrite Hs. simpl. subst t. by destruct d.
  - apply view_save.
Qed.

Lemma setPremiumStatus_twice u b (db : gmap string storedData) :
  setPremiumStatus no_faults u b (setPremiumStatus no_faults u b db)
  = setPremiumStatus no_faults u b db.
Proof.
  pose proof (view_setPremiumStatus u b db) as Hv.
  unfold view in Hv.
  unfold setPremiumStatus at 1.
  destruct (getUserDataInternal no_faults u (setPremiumStatus no_faults u b db))
    as [d db1] eqn:E. simpl in Hv. subst d. simpl.
  rewrite Bool.eqb_reflx.
  assert (Hdb : db1 = (getUserDataInternal no_faults u
                         (setPremiumStatus no_faults u b db)).2) by (by rewrite E).
  rewrite Hdb. clear E Hdb.
  unfold setPremiumStatus.
  pose proof (read_settles u db) as Hs.
  destruct (getUserDataInternal no_faults u db) as [d0 db0]. simpl in *.
  destruct (Bool.eqb (isPremium d0) b).
  - by rewrite Hs.
  - unfold saveUserDataInternal. simpl. by rewrite read_saved.
Qed.

End UserDataProfile.

(** X4.  With Redis working, the first read of an unknown user reports the
    defaults (20 minutes, not premium) and stores them; a read of a known
    user changes nothing; and in either case a second read reports the same
    document and leaves the store as the first read left it. *)
Theorem reads_initialise_once :
  forall u (db : gmap string UserData.storedData),
    let first := UserData.getUserDataInternal UserData.no_faults u db in
    (db !! u = None ->
     first.1 = UserData.defaultData
     /\ first.2 = <[u := UserData.stringify UserData.defaultData]> db)
    /\ (is_Some (db !! u) -> first.2 = db)
    /\ UserData.getUserDataInternal UserData.no_faults u first.2 = first.
Proof.
  intros u db first. split; [| split].
  - intros Hn. unfold first, UserData.getUserDataInternal. simpl. by rewrite Hn.
  - intros [j Hj]. unfold first, UserData.getUserDataInternal. simpl. by rewrite Hj.
  - unfold first. rewrite read_settles. by destruct (UserData.getUserDataInternal _ _ _).
Qed.

Lemma reads_initialise_once_witness :
  (UserData.getUserTime UserData.no_faults "u" ∅).1 = 20%Z
  /\ (UserData.getUserDataInternal UserData.no_faults "u" ∅).2
     = <[ "u" := UserData.stringify UserData.defaultData ]> ∅.
Proof.
  split; [reflexivity |].
  exact (proj2 (proj1 (reads_initialise_once "u" ∅) (lookup_empty _))).
Defined.

(** X5.  With Redis working, the premium flag, the personalization notes
    and the profile summary read back what was set (a missing notes or
    summary argument reads back as the empty string); none of the three
    setters changes the remaining minutes, and setting the premium flag to
    the same value a second time leaves the store unchanged. *)
Theorem profile_fields_read_back :
  forall u (db : gmap string UserData.storedData),
    (forall b,
        (UserData.getUserPremiumStatus UserData.no_faults u
           (UserData.setPremiumStatus UserData.no_faults u b db)).1 = b
        /\ UserData.remainingMinutes
             (view u (UserData.setPremiumStatus UserData.no_faults u b db))
           = UserData.remainingMinutes (view u db)
        /\ UserData.setPremiumStatus UserData.no_faults u b
             (UserData.setPremiumStatus UserData.no_faults u b db)
           = UserData.setPremiumStatus UserData.no_faults u b db)
    /\ (forall n,
          (UserData.getUserPersonalizationNotes UserData.no_faults u
             (UserData.setUserPersonalizationNotes UserData.no_faults u n db)).1
          = default EmptyString n
          /\ UserData.remainingMinutes
               (view u (UserData.setUserPersonalizationNotes UserData.no_faults u n db))
             = UserData.remainingMinutes (view u db))
    /\ (forall t,
          (UserData.getLlmProfileSummary UserData.no_faults u
             (UserData.setLlmProfileSummary UserData.no_faults u t db)).1
          = default EmptyString t
          /\ UserData.remainingMinutes
               (view u (UserData.setLlmProfileSummary UserData.no_faults u t db))
             = UserData.remainingMinutes (view u db)).
Proof.
  intros u db. split; [| split].
  - intros b. pose proof (view_setPremiumStatus u b db) as Hv.
    split; [| split; [by rewrite Hv | apply setPremiumStatus_twice]].
    unfold UserData.getUserPremiumStatus. unfold view in Hv.
    destruct (UserData.getUserDataInternal UserData.no_faults u
                (UserData.setPremiumStatus UserData.no_faults u b db)) as [d db1].
    simpl in *. by rewrite Hv.
  - intros n. pose proof (view_setNotes u n db) as Hv.
    split; [| by rewrite Hv].
    unfold UserData.getUserPersonalizationNotes. unfold view in Hv.
    destruct (UserData.getUserDataInternal UserData.no_faults u
                (UserData.setUserPersonalizationNotes UserData.no_faults u n db))
      as [d db1].
    simpl in *. by rewrite Hv.
  - intros t. pose proof (view_setSummary u t db) as Hv.
    split; [| by rewrite Hv].
    unfold UserData.getLlmProfileSummary. unfold view in Hv.
    destruct (UserData.getUserDataInternal UserData.no_faults u
                (UserData.setLlmProfileSummary UserData.no_faults u t db)) as [d db1].
    simpl in *. by rewrite Hv.
Qed.

(** ** The /premium command *)





(** ** Random helpers: src/utils/random.js *)

Module Random.

(** [Math.random()] lies in [0, 1), so [Math.floor(Math.random() * n)] is an
    index below [n]; the model takes a raw draw and reduces it modulo [n]. *)
Definition below (n raw : nat) : nat := raw mod n.

(** [sample(arr)]: [None] stands for [undefined]. *)
Definition sample {A : Type} (arr : list A) (raw : nat) : option A :=
  match arr with
  | [] => None
  | _ :: _ => arr !! below (length arr) raw
  end.

(** [[a[i], a[j]] = [a[j], a[i]]] for two indices inside the array. *)
Definition swap {A : Type} (a : list A) (i j : nat) : list A :=
  match a !! i, a !! j with
  | Some x, Some y => <[i := y]> (<[j := x]> a)
  | _, _ => a
  end.

(** The loop [for (let i = a.length - 1; i > 0; i--)], entered at index
    [i]; [draw i] is the raw draw of the iteration at index [i]. *)
Fixpoint shuffleFrom {A : Type} (draw : nat -> nat) (i : nat) (a : list A) : list A :=
  match i with
  | O => a
  | S k => shuffleFrom draw k (swap a i (below (S i) (draw i)))
  end.

(** [shuffle(arr)]: works on [arr.slice()], so the argument is untouched. *)
Definition shuffle {A : Type} (draw : nat -> nat) (arr : list A) : list A :=
  shuffleFrom draw (length arr - 1) arr.

End Random.

Section RandomFacts.

Import Random.
Context {A : Type}.

Lemma swap_perm (a : list A) i j : swap a i j ≡ₚ a.
Proof.
  unfold swap.
  destruct (a !! i) as [x|] eqn:Ei; [| reflexivity].
  destruct (a !! j) as [y|] eqn:Ej; [| reflexivity].
  by apply Permutation_insert_swap.
Qed.

Lemma shuffleFrom_perm draw i : forall a : list A, shuffleFrom draw i a ≡ₚ a.
Proof.
  induction i as [|k IH]; intros a; simpl; [reflexivity |].
  rewrite IH. apply swap_perm.
Qed.

End RandomFacts.

(** X7.  [shuffle] returns a rearrangement of its argument: the result is a
    permutation of the input, so it has the same length and the same
    elements with the same multiplicities, whatever the random draws; the
    empty array and a one-element array come back as they are. *)
Theorem shuffle_is_permutation :
  forall (A : Type) (draw : nat -> nat) (arr : list A),
    Random.shuffle draw arr ≡ₚ arr
    /\ length (Random.shuffle draw arr) = length arr
    /\ (forall x, x ∈ Random.shuffle draw arr <-> x ∈ arr)
    /\ (length arr <= 1 -> Random.shuffle draw arr = arr).
Proof.
  intros A draw arr.
  assert (Hp : Random.shuffle draw arr ≡ₚ arr) by apply shuffleFrom_perm.
  split; [exact Hp |].
  split; [by rewrite Hp |].
  split; [intros x; by rewrite Hp |].
  intros Hlen. unfold Random.shuffle.
  replace (length arr - 1) with 0 by lia. reflexivity.
Qed.

Lemma shuffle_is_permutation_witness :
  Random.shuffle (fun i => i + 1) [10; 20; 30; 40] = [20; 30; 40; 10]
  /\ Random.shuffle (fun _ => 0) [7] = [7].
Proof.
  split; [reflexivity |].
  apply (proj2 (proj2 (proj2 (shuffle_is_permutation nat (fun _ => 0) [7])))).
  simpl. lia.
Defined.

(** X8.  [sample] returns nothing exactly for the empty array and otherwise
    an element of the array. *)
Theorem sample_is_member :
  forall (A : Type) (arr : list A) (raw : nat),
    (Random.sample arr raw = None <-> arr = [])
    /\ (forall x, Random.sample arr raw = Some x -> x ∈ arr).
Proof.
  intros A arr raw. unfold Random.sample, Random.below.
  destruct arr as [|a arr]; [split; [done | discriminate] |].
  assert (Hlt : raw mod length (a :: arr) < length (a :: arr)).
  { apply Nat.mod_upper_bound. simpl. lia. }
  split.
  - split; [| discriminate].
    intros Hnone. apply lookup_ge_None in Hnone. lia.
  - intros x Hx. eapply list_elem_of_lookup_2. exact Hx.
Qed.

Lemma sample_is_member_witness : 20 ∈ [10; 20; 30].
Proof. exact (proj2 (sample_is_member nat [10; 20; 30] 4) 20 eq_refl). Defined.

(** ** What a fetched batch contains *)

Section BatchContents.

Import Media MediaFetcher.

Variable searchPosts : nat -> option (list post).
Variable posted : gset string.
Variable batchSize : nat.

(** An item of the batch: its link is the post's [file_url], the post passed
    the filter, the link was not posted before, and the post was on one of
    the pages in [pages]. *)
Definition sound_item (pages : list nat) (it : mediaItem) : Prop :=
  file_url (item_post it) = Some (url it)
  /\ suitable (item_post it) = true
  /\ (url it ∉ posted)
  /\ exists p, p ∈ pages /\ item_post it ∈ default [] (searchPosts p).

Definition sound_batch (pages : list nat) (found : list mediaItem) : Prop :=
  length found <= batchSize
  /\ NoDup (map url found)
  /\ Forall (sound_item pages) found.

Lemma sound_item_mono pages pages' it :
  (forall p, p ∈ pages -> p ∈ pages') -> sound_item pages it -> sound_item pages' it.
Proof.
  intros Hsub (H1 & H2 & H3 & p & Hp & Hin).
  repeat split; try done. exists p. split; [by apply Hsub | exact Hin].
Qed.

Lemma existsb_url_false (found : list mediaItem) u :
  existsb (fun it => String.eqb (url it) u) found = false -> u ∉ map url found.
Proof.
  induction found as [|it found IH]; simpl; [intros _; apply not_elem_of_nil |].
  intros H. apply orb_false_elim in H as [H1 H2].
  apply not_elem_of_cons. split; [| by apply IH].
  intros ->. by rewrite String.eqb_refl in H1.
Qed.

Lemma addUnique_sound pages found p :
  suitable p = true ->
  (exists q, q ∈ pages /\ p ∈ default [] (searchPosts q)) ->
  sound_batch pages found ->
  sound_batch pages (addUnique batchSize posted found p).
Proof.
  intros Hs Hfrom (Hlen & Hnd & Hall). unfold addUnique.
  destruct (Nat.leb_spec batchSize (length found)) as [Hfull|Hroom]; [done |].
  destruct (file_url p) as [u|] eqn:Eu; [| done].
  destruct (decide (u ∈ posted)); [done |].
  destruct (existsb _ found) eqn:Ex; [done |].
  apply existsb_url_false in Ex.
  split; [rewrite length_app; simpl; lia |].
  split.
  - rewrite map_app. simpl. apply NoDup_app. split; [exact Hnd |].
    split; [| apply NoDup_singleton].
    intros x Hx Hx'. apply list_elem_of_singleton in Hx'. by subst.
  - apply Forall_app. split; [exact Hall |].
    apply Forall_singleton. by repeat split.
Qed.

Lemma fold_addUnique_sound pages q : forall posts found,
  q ∈ pages ->
  (forall p, p ∈ posts -> p ∈ default [] (searchPosts q)) ->
  sound_batch pages found ->
  sound_batch pages
    (fold_left (addUnique batchSize posted)
               (filter (fun p => suitable p = true) posts) found).
Proof.
  induction posts as [|p posts IH]; intros found Hq Hsub Hgood; [exact Hgood |].
  rewrite filter_cons.
  assert (Hrest : forall p0, p0 ∈ posts -> p0 ∈ default [] (searchPosts q)).
  { intros p0 Hp0. apply Hsub. by right. }
  destruct (decide (suitable p = true)) as [Hs|Hs]; simpl; [| by apply IH].
  apply IH; [exact Hq | exact Hrest |].
  apply addUnique_sound; [exact Hs | | exact Hgood].
  exists q. split; [exact Hq | apply Hsub; by left].
Qed.

Lemma sound_batch_mono pages pages' found :
  (forall p, p ∈ pages -> p ∈ pages') ->
  sound_batch pages found -> sound_batch pages' found.
Proof.
  intros Hsub (H1 & H2 & H3). repeat split; try done.
  eapply Forall_impl; [exact H3 |]. intros it. by apply sound_item_mono.
Qed.

Lemma batchLoop_sound n : forall r r',
  sound_batch (requestedPages r) (foundMediaBatch r) ->
  batchLoop searchPosts posted batchSize n r = Some r' ->
  sound_batch (requestedPages r') (foundMediaBatch r').
Proof.
  induction n as [|n IH]; intros r r' Hgood.
  - rewrite batchLoop_zero. by intros [= <-].
  - rewrite batchLoop_succ.
    destruct (negb _); [by intros [= <-] |].
    destruct (MAX_FETCH_PAGE + 1 <=? size (attemptedPages r))%nat; [by intros [= <-] |].
    destruct (drawPage (attemptedPages r) (tapeLeft r)) as [[p rest]|]; [| discriminate].
    intros Hrun. apply IH in Hrun; [exact Hrun |]. simpl.
    apply fold_addUnique_sound with (q := p).
    + apply elem_of_app. right. by apply list_elem_of_singleton.
    + done.
    + eapply sound_batch_mono; [| exact Hgood].
      intros q Hq. apply elem_of_app. by left.
Qed.

End BatchContents.

(** X9.  Whatever the search returns and whatever was drawn, a batch
    returned by [fetchMediaBatch] holds at most [batchSize] items, no link
    twice and no link of the posted set; every item carries the [file_url]
    of a post that passed the filter (a direct media link with a score above
    100) and that was on one of the requested pages.  For a character type
    other than fictional the batch is empty and nothing is requested. *)
Theorem fetched_batch_is_fresh_and_bounded :
  forall ctype searchPosts (posted : gset string) batchSize attempts tape r,
    MediaFetcher.fetchMediaBatch ctype searchPosts posted batchSize attempts tape = Some r ->
    length (MediaFetcher.foundMediaBatch r) <= batchSize
    /\ NoDup (map Media.url (MediaFetcher.foundMediaBatch r))
    /\ (forall it, it ∈ MediaFetcher.foundMediaBatch r ->
          (Media.url it ∉ posted)
          /\ Media.file_url (Media.item_post it) = Some (Media.url it)
          /\ MediaFetcher.suitable (Media.item_post it) = true
          /\ exists p, p ∈ MediaFetcher.requestedPages r
                       /\ Media.item_post it ∈ default [] (searchPosts p))
    /\ (ctype <> "fictional" ->
        MediaFetcher.foundMediaBatch r = [] /\ MediaFetcher.requestedPages r = []).
Proof.
  intros ctype searchPosts posted batchSize attempts tape r Hrun.
  assert (H0 : sound_batch searchPosts posted batchSize [] []).
  { split; [simpl; lia |]. split; [apply NoDup_nil_2 | apply Forall_nil_2]. }
  unfold MediaFetcher.fetchMediaBatch in Hrun.
  destruct (decide (ctype = "fictional")) as [E|E].
  - apply batchLoop_sound in Hrun; [| exact H0].
    destruct Hrun as (Hlen & Hnd & Hall).
    split; [exact Hlen |]. split; [exact Hnd |]. split; [| done].
    intros it Hit. rewrite Forall_forall in Hall.
    destruct (Hall it Hit) as (H1 & H2 & H3 & H4). by repeat split.
  - injection Hrun as <-. simpl.
    split; [lia |]. split; [apply NoDup_nil_2 |].
    split; [intros it Hit; by apply elem_of_nil in Hit | done].
Qed.

Lemma fetched_batch_is_fresh_and_bounded_witness :
  exists r,
    MediaFetcher.fetchMediaBatch "fictional" page3_only ∅ 2 5 [3; 3; 1; 4; 0; 5] = Some r
    /\ map Media.url (MediaFetcher.foundMediaBatch r) = ["http://x/1.png"; "http://x/2.png"]
    /\ length (MediaFetcher.foundMediaBatch r) <= 2.
Proof.
  assert (H : exists att tp,
             MediaFetcher.fetchMediaBatch "fictional" page3_only ∅ 2 5 [3; 3; 1; 4; 0; 5]
             = Some (MediaFetcher.mkRun
                       [demo_item 1 "http://x/1.png"; demo_item 2 "http://x/2.png"]
                       [3] att tp)).
  { eexists _, _. vm_compute. reflexivity. }
  destruct H as (att & tp & H).
  eexists. split; [exact H |]. split; [reflexivity |].
  exact (proj1 (fetched_batch_is_fresh_and_bounded _ _ _ _ _ _ _ H)).
Defined.

(** ** Single-item fetch: fetchMedia and _fetchRule34Media of
    src/media/fetcher.js *)

Module FetchMedia.

Import Media MediaFetcher.

(** The filter of [_fetchRule34Media]: as for a batch, with a score above
    300. *)
Definition suitable300 (p : post) : bool :=
  match file_url p, score p with
  | Some u, Some sc => truthy u && isDirectMediaUrl u && (300 <? sc)%Z
  | _, _ => false
  end.

(** [!postedMediaUrls.has(post.file_url)] *)
Definition unposted (posted : gset string) (p : post) : bool :=
  match file_url p with
  | Some u => bool_decide (u ∉ posted)
  | None => true
  end.

Record single := mkSingle {
  picked : option mediaItem;      (* None for null *)
  singlePages : list nat;         (* page ids passed to searchPosts, in order *)
  singleTape : list nat
}.

(** The [for] loop by recursion on the attempts that remain.  The tape holds
    the page draws, as in [drawPage], and after a page with unique posts the
    raw draw of [sample]. *)
Fixpoint attemptLoop (searchPosts : nat -> option (list post))
    (posted : gset string) (attemptsLeft : nat) (attempted : gset nat)
    (requested : list nat) (tape : list nat) : option single :=
  match attemptsLeft with
  | O => Some (mkSingle None requested tape)
  | S n =>
      if (MAX_FETCH_PAGE + 1 <=? size attempted)%nat
      then Some (mkSingle None requested tape)
      else match drawPage attempted tape with
           | None => None
           | Some (randomPageId, rest) =>
               let posts := default [] (searchPosts randomPageId) in
               let suitablePosts := List.filter suitable300 posts in
               let uniquePosts := List.filter (unposted posted) suitablePosts in
               match uniquePosts with
               | [] => attemptLoop searchPosts posted n ({[randomPageId]} ∪ attempted)
                                   (requested ++ [randomPageId]) rest
               | _ :: _ =>
                   match rest with
                   | [] => None
                   | raw :: rest' =>
                       match Random.sample uniquePosts raw with
                       | Some randomPost =>
                           Some (mkSingle
                                   (Some (mkItem (default EmptyString (file_url randomPost))
                                                 randomPost))
                                   (requested ++ [randomPageId]) rest')
                       | None => None
                       end
                   end
               end
           end
  end.

Definition fetchRule34Media (searchPosts : nat -> option (list post))
    (posted : gset string) (maxAttempts : nat) (tape : list nat) : option single :=
  let rule34Attempts := Nat.max 1 (maxAttempts / 2) in
  attemptLoop searchPosts posted rule34Attempts ∅ [] tape.

(** [fetchMedia]; [sourceList] is [None] for a missing list. *)
Definition fetchMedia (characterType : string) (sourceList : option (list string))
    (searchPosts : nat -> option (list post)) (posted : gset string)
    (maxAttempts : nat) (tape : list nat) : option single :=
  match sourceList with
  | None | Some [] => Some (mkSingle None [] tape)
  | Some (_ :: _) =>
      if decide (characterType = "fictional"%string)
      then fetchRule34Media searchPosts posted maxAttempts tape
      else Some (mkSingle None [] tape)
  end.

End FetchMedia.

Section SingleFetch.

Import Media MediaFetcher FetchMedia.

Lemma attemptLoop_succ searchPosts posted n attempted requested tape :
  attemptLoop searchPosts posted (S n) attempted requested tape =
  if (MAX_FETCH_PAGE + 1 <=? size attempted)%nat
  then Some (mkSingle None requested tape)
  else match drawPage attempted tape with
       | None => None
       | Some (randomPageId, rest) =>
           match List.filter (unposted posted)
                   (List.filter suitable300 (default [] (searchPosts randomPageId))) with
           | [] => attemptLoop searchPosts posted n ({[randomPageId]} ∪ attempted)
                               (requested ++ [randomPageId]) rest
           | q :: qs =>
               match rest with
               | [] => None
               | raw :: rest' =>
                   match Random.sample (q :: qs) raw with
                   | Some randomPost =>
                       Some (mkSingle
                               (Some (mkItem (default EmptyString (file_url randomPost))
                                             randomPost))
                               (requested ++ [randomPageId]) rest')
                   | None => None
                   end
               end
           end
       end.
Proof.
  change (attemptLoop searchPosts posted (S n) attempted requested tape)
    with (if (MAX_FETCH_PAGE + 1 <=? size attempted)%nat
          then Some (mkSingle None requested tape)
          else match drawPage attempted tape with
               | None => None
               | Some (randomPageId, rest) =>
                   match List.filter (unposted posted)
                           (List.filter suitable300
                              (default [] (searchPosts randomPageId))) with
                   | [] => attemptLoop searchPosts posted n ({[randomPageId]} ∪ attempted)
                                       (requested ++ [randomPageId]) rest
                   | _ :: _ =>
                       match rest with
                       | [] => None
                       | raw :: rest' =>
                           match Random.sample
                                   (List.filter (unposted posted)
                                      (List.filter suitable300
                                         (default [] (searchPosts randomPageId)))) raw with
                           | Some randomPost =>
                               Some (mkSingle
                                       (Some (mkItem
                                                (default EmptyString (file_url randomPost))
                                                randomPost))
                                       (requested ++ [randomPageId]) rest')
                           | None => None
                           end
                       end
                   end
               end).
  destruct (MAX_FETCH_PAGE + 1 <=? size attempted)%nat; [reflexivity |].
  destruct (drawPage attempted tape) as [[p rest]|]; [| reflexivity].
  by destruct (List.filter (unposted posted) _).
Qed.

Lemma attemptLoop_sound searchPosts posted n : forall attempted requested tape r,
  NoDup requested ->
  (forall p, p ∈ requested -> p ∈ attempted) ->
  attemptLoop searchPosts posted n attempted requested tape = Some r ->
  NoDup (singlePages r)
  /\ length (singlePages r) <= length requested + n
  /\ forall it, picked r = Some it ->
       (url it ∉ posted)
       /\ file_url (item_post it) = Some (url it)
       /\ suitable300 (item_post it) = true
       /\ exists p, last (singlePages r) = Some p
                    /\ item_post it ∈ default [] (searchPosts p).
Proof.
  induction n as [|n IH]; intros attempted requested tape r Hnd Hsub.
  { simpl. intros [= <-]. simpl. split; [exact Hnd |]. split; [lia | discriminate]. }
  rewrite attemptLoop_succ.
  destruct (MAX_FETCH_PAGE + 1 <=? size attempted)%nat.
  { intros [= <-]. simpl. split; [exact Hnd |]. split; [lia | discriminate]. }
  destruct (drawPage attempted tape) as [[p rest]|] eqn:Ed; [| discriminate].
  apply drawPage_fresh in Ed.
  assert (Hnd' : NoDup (requested ++ [p])).
  { apply NoDup_app. split; [exact Hnd |]. split; [| apply NoDup_singleton].
    intros q Hq Hq'. apply list_elem_of_singleton in Hq'. subst q. by apply Ed, Hsub. }
  destruct (List.filter (unposted posted) (List.filter suitable300 (default [] (searchPosts p))))
    as [|q0 qs] eqn:Eu.
  - intros Hrun. apply IH in Hrun; [| exact Hnd' |].
    + destruct Hrun as (H1 & H2 & H3). split; [exact H1 |].
      split; [rewrite length_app in H2; simpl in H2; lia | exact H3].
    + intros q Hq. apply elem_of_app in Hq as [Hq|Hq].
      * apply elem_of_union_r. by apply Hsub.
      * apply list_elem_of_singleton in Hq. subst q.
        apply elem_of_union_l. by apply elem_of_singleton.
  - destruct rest as [|raw rest']; [discriminate |].
    destruct (Random.sample (q0 :: qs) raw) as [randomPost|] eqn:Es; [| discriminate].
    intros [= <-]. simpl.
    split; [exact Hnd' |]. split; [rewrite length_app; simpl; lia |].
    intros it [= <-]. simpl.
    destruct (sample_is_member _ (q0 :: qs) raw) as [_ Hmem].
    specialize (Hmem _ Es). rewrite <- Eu in Hmem.
    apply list_elem_of_In, List.filter_In in Hmem as [Hmem Hun].
    apply List.filter_In in Hmem as [Hin Hsuit].
    unfold unposted in Hun. unfold suitable300 in Hsuit.
    destruct (file_url randomPost) as [u|] eqn:Ef; [| discriminate]. simpl.
    split; [by apply bool_decide_eq_true_1 in Hun |].
    split; [reflexivity |].
    split; [unfold suitable300; by rewrite Ef |].
    exists p. split; [by rewrite last_snoc | by apply list_elem_of_In].
Qed.

End SingleFetch.

(** X10.  [fetchMedia] returns nothing and requests nothing for an empty or
    missing source list and for every character type other than fictional.
    For a fictional character it requests each page at most once and at
    most [max(1, floor(maxAttempts / 2))] pages; an item it returns has a
    link that is not in the posted set, is the [file_url] of a post that
    passed the filter with a score above 300, and that post was on the last
    page requested. *)
Theorem single_fetch_is_fresh :
  forall ctype sourceList searchPosts (posted : gset string) maxAttempts tape r,
    FetchMedia.fetchMedia ctype sourceList searchPosts posted maxAttempts tape = Some r ->
    NoDup (FetchMedia.singlePages r)
    /\ length (FetchMedia.singlePages r) <= Nat.max 1 (maxAttempts / 2)
    /\ (forall it, FetchMedia.picked r = Some it ->
          (Media.url it ∉ posted)
          /\ Media.file_url (Media.item_post it) = Some (Media.url it)
          /\ FetchMedia.suitable300 (Media.item_post it) = true
          /\ exists p, last (FetchMedia.singlePages r) = Some p
                       /\ Media.item_post it ∈ default [] (searchPosts p))
    /\ (ctype <> "fictional" \/ sourceList = None \/ sourceList = Some [] ->
        FetchMedia.picked r = None /\ FetchMedia.singlePages r = []).
Proof.
  intros ctype sourceList searchPosts posted maxAttempts tape r Hrun.
  assert (Hnone : r = FetchMedia.mkSingle None [] tape ->
                  NoDup (FetchMedia.singlePages r)
                  /\ length (FetchMedia.singlePages r) <= Nat.max 1 (maxAttempts / 2)
                  /\ (forall it, FetchMedia.picked r = Some it ->
                        (Media.url it ∉ posted)
                        /\ Media.file_url (Media.item_post it) = Some (Media.url it)
                        /\ FetchMedia.suitable300 (Media.item_post it) = true
                        /\ exists p, last (FetchMedia.singlePages r) = Some p
                                     /\ Media.item_post it ∈ default [] (searchPosts p))
                  /\ FetchMedia.picked r = None /\ FetchMedia.singlePages r = []).
  { intros ->. simpl. split; [apply NoDup_nil_2 |]. split; [lia |].
    split; [discriminate | done]. }
  unfold FetchMedia.fetchMedia in Hrun.
  destruct sourceList as [[|src srcs]|].
  - injection Hrun as <-. destruct (Hnone eq_refl) as (H1 & H2 & H3 & H4). by repeat split.
  - destruct (decide (ctype = "fictional")) as [E|E].
    + unfold FetchMedia.fetchRule34Media in Hrun.
      apply attemptLoop_sound in Hrun;
        [| apply NoDup_nil_2 | intros p Hp; by apply elem_of_nil in Hp].
      destruct Hrun as (H1 & H2 & H3). split; [exact H1 |].
      split; [exact H2 |]. split; [exact H3 |].
      intros [H|[H|H]]; [by destruct H | discriminate | discriminate].
    + injection Hrun as <-. destruct (Hnone eq_refl) as (H1 & H2 & H3 & H4).
      by repeat split.
  - injection Hrun as <-. destruct (Hnone eq_refl) as (H1 & H2 & H3 & H4). by repeat split.
Qed.

Definition posted1 : gset string := {["http://x/1.png"]}.

Lemma single_fetch_is_fresh_witness :
  exists r,
    FetchMedia.fetchMedia "fictional" (Some ["tag_a"]) page3_only posted1 5 [3; 0] = Some r
    /\ FetchMedia.picked r = Some (demo_item 2 "http://x/2.png")
    /\ NoDup (FetchMedia.singlePages r).
Proof.
  assert (H : FetchMedia.fetchMedia "fictional" (Some ["tag_a"]) page3_only posted1 5 [3; 0]
              = Some (FetchMedia.mkSingle (Some (demo_item 2 "http://x/2.png")) [3] [])).
  { vm_compute. reflexivity. }
  eexists. split; [exact H |]. split; [reflexivity |].
  exact (proj1 (single_fetch_is_fresh _ _ _ _ _ _ _ H)).
Defined.

(** ** The session after its end *)

Section Terminal.

Import Session.








End Terminal.



(** ** What a cycle that goes on does *)

Section CycleEffects.

Import Session.

(** The part of a session that selection never touches. *)
Definition core (s : t) :=
  (ident s, isActive s, dmChannelId s, postedMediaUrls s, actionLoopTimerId s,
   sessionEndTimerId s, lastSentMediaInfo s, triggeredTags s).

Definition all_requests (evs : list event) : Prop :=
  Forall (fun e => is_request e = true) evs.

Lemma fetchNextRedditPage_core sub s :
  core (fetchNextRedditPage sub s).1.2 = core s
  /\ all_requests (fetchNextRedditPage sub s).2.
Proof.
  unfold fetchNextRedditPage, all_requests.
  destruct (negb (isActive s) || negb (Media.truthy sub)); [by split |].
  destruct (redditFetchState s !! sub) as [st|]; [| by split].
  destruct (isFetching st || allFetched st); [by split |].
  split; [reflexivity | by repeat constructor].
Qed.

Lemma fetchSettled_core sub o s : core (fetchSettled sub o s) = core s.
Proof.
  unfold fetchSettled. destruct o as [|[pg|]]; simpl; try reflexivity.
  - destruct (isActive s); simpl; [| reflexivity]. by destruct (posts pg).
  - by destruct (isActive s).
Qed.

Lemma refillReal_core env s :
  core (rf_session (refillReal env s)) = core s
  /\ all_requests (rf_events (refillReal env s)).
Proof.
  unfold refillReal.
  destruct (selectFromPool _ _ _ _ _) as [first k1].
  assert (Hmid : forall x : t * list event * option Media.mediaItem,
             core x.1.1 = core s -> all_requests x.1.2 ->
             let r := (let '(s1, ev1, candidate) := x in
                       let llm := match candidate with
                                  | Some _ => Some (singleCommentary env)
                                  | None => None
                                  end in
                       match firstEligible s1 with
                       | Some sub0 =>
                           let '(_, s2, ev2) := fetchNextRedditPage sub0 s1 in
                           mkRefilled s2 (ev1 ++ ev2) candidate llm
                       | None => mkRefilled s1 ev1 candidate llm
                       end) in
             core (rf_session r) = core s /\ all_requests (rf_events r)).
  { intros [[s1 ev1] cand] Hc Hr; simpl in Hc, Hr.
    destruct (firstEligible s1) as [sub0|]; simpl; [| by split].
    destruct (fetchNextRedditPage_core sub0 s1) as [Hc2 Hr2].
    destruct (fetchNextRedditPage sub0 s1) as [[b s2] ev2]; simpl in *.
    split; [by rewrite Hc2 | by apply Forall_app]. }
  apply Hmid.
  - destruct first as [c|]; [reflexivity |].
    destruct (firstEligible s) as [sub0|]; [| reflexivity].
    destruct (fetchNextRedditPage_core sub0 s) as [Hc2 _].
    destruct (fetchNextRedditPage sub0 s) as [[started s'] ev]; simpl in *.
    destruct started; simpl; [by rewrite fetchSettled_core | exact Hc2].
  - destruct first as [c|]; [apply Forall_nil_2 |].
    destruct (firstEligible s) as [sub0|]; [| apply Forall_nil_2].
    destruct (fetchNextRedditPage_core sub0 s) as [_ Hr2].
    destruct (fetchNextRedditPage sub0 s) as [[started s'] ev]; simpl in *.
    by destruct started.
Qed.

Lemma refillFictional_core env s :
  core (rf_session (refillFictional env s)) = core s
  /\ all_requests (rf_events (refillFictional env s)).
Proof.
  unfold refillFictional, all_requests.
  destruct (default [] (fetchedMediaBatch env)) as [|m batch]; simpl.
  - split; [reflexivity | by repeat constructor].
  - split; [| by repeat constructor].
    destruct (LlmClient.generateBatchCommentary _ _ _ _) as [cs|]; [| reflexivity].
    by destruct (_ =? _).
Qed.

Lemma refill_core env s :
  core (rf_session (refill env s)) = core s
  /\ all_requests (rf_events (refill env s)).
Proof.
  unfold refill. simpl.
  destruct (decide _).
  { destruct (refillReal_core env (set_commentaryQueue [] (set_mediaBatchQueue [] s)))
      as [H1 H2]. by split. }
  destruct (decide _).
  { destruct (refillFictional_core env (set_commentaryQueue [] (set_mediaBatchQueue [] s)))
      as [H1 H2]. by split. }
  split; [reflexivity | apply Forall_nil_2].
Qed.

Lemma dequeue_core s : core (dequeue s).1.1 = core s.
Proof. unfold dequeue. by destruct (mediaBatchQueue s), (commentaryQueue s). Qed.

Lemma fromQueues_core r :
  core (sel_session (fromQueues r)) = core (rf_session r)
  /\ sel_events (fromQueues r) = rf_events r.
Proof.
  unfold fromQueues. destruct (both_nonempty (rf_session r)); [| by split].
  pose proof (dequeue_core (rf_session r)) as Hd.
  destruct (dequeue (rf_session r)) as [[s1 m] c]. by split.
Qed.

Lemma selectNext_core env s :
  core (sel_session (selectNext env s)) = core s
  /\ all_requests (sel_events (selectNext env s)).
Proof.
  set (s0 := set_postCycleCount (S (postCycleCount s)) s).
  destruct (refill_core env s0) as [Hc Hr].
  destruct (selectNext_cases env s) as [[_ Hs]|[_ [(item & c & Hs)|Hs]]]; rewrite Hs.
  - pose proof (dequeue_core s0) as Hd. fold s0.
    destruct (dequeue s0) as [[s1 m] c]. split; [exact Hd | apply Forall_nil_2].
  - by split.
  - destruct (fromQueues_core (refill env s0)) as [H1 H2]. fold s0.
    split; [by rewrite H1 | by rewrite H2].
Qed.


Lemma requests_not_delivered evs link : all_requests evs -> ~ In (EvMediaDelivered link) evs.
Proof.
  intros H Hin. unfold all_requests in H. rewrite Forall_forall in H.
  apply list_elem_of_In in Hin. specialize (H _ Hin). discriminate.
Qed.

End CycleEffects.

Section Delivery.

Import Session.

Lemma deliverCommentary_core env c s :
  core (deliverCommentary env c s).1 = core s
  /\ Forall (fun e => e = EvCommentaryDelivered c) (deliverCommentary env c s).2.
Proof.
  unfold deliverCommentary.
  destruct (Media.truthy_opt (currentCommentaryMessageId s)) eqn:E; simpl.
  - destruct (commentaryEdit env); simpl; rewrite ?E; simpl;
      try destruct (commentarySend env); simpl; split; by repeat constructor.
  - rewrite E. destruct (commentarySend env); simpl; split; by repeat constructor.
Qed.

(** Either nothing was delivered and the session is as before, or the link
    was delivered and has joined the posted set. *)
Lemma deliverMedia_effects env m s :
  let r := deliverMedia env m s in
  (core r.1 = core s /\ r.2 = [])
  \/ (r.2 = [EvMediaDelivered (Media.url m)]
      /\ postedMediaUrls r.1 = {[Media.url m]} ∪ postedMediaUrls s
      /\ isActive r.1 = isActive s
      /\ lastSentMediaInfo r.1 = lastSentMediaInfo s
      /\ actionLoopTimerId r.1 = actionLoopTimerId s).
Proof.
  unfold deliverMedia.
  destruct (negb (Media.truthy (Media.url m))); [by left |].
  destruct (Media.truthy_opt (currentMediaMessageId s)) eqn:E; simpl.
  - destruct (mediaEdit env); simpl; rewrite ?E; simpl;
      try destruct (mediaSend env); simpl; (by left) || (by right).
  - rewrite E. destruct (mediaSend env); simpl; (by left) || (by right).
Qed.

(** Both a media item and a non-empty commentary were selected. *)
Definition pair_selected (sel : selected) : bool :=
  match mediaToSend sel, commentaryToSend sel with
  | Some _, Some c => Media.truthy c
  | _, _ => false
  end.

Definition next_delay (env : cycleEnv) (sel : selected) : Z :=
  if pair_selected sel && embedThrows env
  then (ACTION_INTERVAL_MS / 2)%Z else ACTION_INTERVAL_MS.

Lemma timer_effects h s :
  isActive s = true ->
  isActive (startActionLoopTimer h s).1 = true
  /\ List.filter is_schedule (startActionLoopTimer h s).2 = [EvSetTimeout h ACTION_INTERVAL_MS]
  /\ postedMediaUrls (startActionLoopTimer h s).1 = postedMediaUrls s
  /\ lastSentMediaInfo (startActionLoopTimer h s).1 = lastSentMediaInfo s
  /\ forall link, ~ In (EvMediaDelivered link) (startActionLoopTimer h s).2.
Proof.
  intros Ha. unfold startActionLoopTimer. rewrite Ha. simpl.
  split; [exact Ha |].
  split; [by destruct (actionLoopTimerId s) |].
  split; [reflexivity |]. split; [reflexivity |].
  intros link Hin. apply in_app_or in Hin as [Hin|[Hin|[]]]; [| discriminate].
  destruct (actionLoopTimerId s); simpl in Hin; [destruct Hin as [H|[]]; discriminate | done].
Qed.

Lemma deliver_effects env sel :
  isActive (sel_session sel) = true ->
  let r := deliver env sel in
  isActive r.1 = true
  /\ List.filter is_schedule r.2 = [EvSetTimeout (timerHandle env) (next_delay env sel)]
  /\ postedMediaUrls (sel_session sel) ⊆ postedMediaUrls r.1
  /\ forall link, In (EvMediaDelivered link) r.2 ->
       link ∈ postedMediaUrls r.1
       /\ exists m c,
            mediaToSend sel = Some m /\ commentaryToSend sel = Some c
            /\ Media.url m = link /\ lastSentMediaInfo r.1 = Some m.
Proof.
  intros Ha. unfold deliver, next_delay, pair_selected.
  assert (Hskip :
    let r := startActionLoopTimer (timerHandle env) (sel_session sel) in
    isActive r.1 = true
    /\ List.filter is_schedule r.2 = [EvSetTimeout (timerHandle env) ACTION_INTERVAL_MS]
    /\ postedMediaUrls (sel_session sel) ⊆ postedMediaUrls r.1
    /\ forall link, In (EvMediaDelivered link) r.2 ->
         link ∈ postedMediaUrls r.1
         /\ exists m c,
              mediaToSend sel = Some m /\ commentaryToSend sel = Some c
              /\ Media.url m = link /\ lastSentMediaInfo r.1 = Some m).
  { destruct (timer_effects (timerHandle env) (sel_session sel) Ha)
      as (H1 & H2 & H3 & _ & H5).
    split; [exact H1 |]. split; [exact H2 |]. split; [by rewrite H3 |].
    intros link Hin. by apply H5 in Hin. }
  destruct (mediaToSend sel) as [m|] eqn:Em; [| exact Hskip].
  destruct (commentaryToSend sel) as [c|] eqn:Ec; [| exact Hskip].
  destruct (Media.truthy c); [| exact Hskip]. simpl.
  destruct (embedThrows env); simpl.
  { split; [exact Ha |]. split; [reflexivity |]. split; [done |].
    intros link [H|[]]. discriminate. }
  destruct (deliverCommentary_core env c
              (set_lastSentMediaInfo (Some m) (sel_session sel))) as [Hc Hev2].
  destruct (deliverCommentary env c _) as [s2 ev2]. simpl in Hc, Hev2.
  assert (Ha2 : isActive s2 = true) by (unfold core in Hc; simpl in Hc; congruence).
  assert (Hp2 : postedMediaUrls s2 = postedMediaUrls (sel_session sel))
    by (unfold core in Hc; simpl in Hc; congruence).
  assert (Hl2 : lastSentMediaInfo s2 = Some m)
    by (unfold core in Hc; simpl in Hc; congruence).
  assert (Hsched2 : List.filter is_schedule ev2 = []).
  { clear -Hev2. induction Hev2 as [|e ev He _ IH]; [reflexivity |].
    subst e. simpl. exact IH. }
  assert (Hnot2 : forall link, ~ In (EvMediaDelivered link) ev2).
  { intros link Hin. rewrite Forall_forall in Hev2.
    apply list_elem_of_In in Hin. specialize (Hev2 _ Hin). discriminate. }
  pose proof (deliverMedia_effects env m s2) as Hm.
  destruct (deliverMedia env m s2) as [s3 ev3]. simpl in Hm.
  assert (Hs3 : isActive s3 = true /\ lastSentMediaInfo s3 = Some m
                /\ postedMediaUrls s2 ⊆ postedMediaUrls s3
                /\ List.filter is_schedule ev3 = []
                /\ forall link, In (EvMediaDelivered link) ev3 ->
                     link = Media.url m /\ link ∈ postedMediaUrls s3).
  { destruct Hm as [[Hc3 ->]|(-> & Hp3 & Ha3 & Hl3 & _)].
    - unfold core in Hc3. simpl in Hc3.
      split; [congruence |]. split; [congruence |].
      split; [assert (postedMediaUrls s3 = postedMediaUrls s2) as -> by congruence; done |].
      split; [reflexivity | intros link []].
    - split; [congruence |]. split; [congruence |].
      split; [rewrite Hp3; apply union_subseteq_r |].
      split; [reflexivity |].
      intros link [H|[]]. injection H as <-. split; [reflexivity |].
      rewrite Hp3. apply elem_of_union_l. by apply elem_of_singleton. }
  destruct Hs3 as (Ha3 & Hl3 & Hp3 & Hsched3 & Hdel3).
  destruct (timer_effects (timerHandle env) s3 Ha3) as (H1 & H2 & H3 & H4 & H5).
  destruct (startActionLoopTimer (timerHandle env) s3) as [s4 ev4]. simpl in *.
  split; [exact H1 |].
  split; [by rewrite !List.filter_app, Hsched2, Hsched3, H2 |].
  split; [rewrite H3, <- Hp2; exact Hp3 |].
  intros link Hin.
  apply in_app_or in Hin as [Hin|Hin]; [by apply Hnot2 in Hin |].
  apply in_app_or in Hin as [Hin|Hin]; [| by apply H5 in Hin].
  destruct (Hdel3 link Hin) as [-> Hposted].
  split; [by rewrite H3 |].
  exists m, c. by rewrite H4.
Qed.

End Delivery.

Section CycleTheorems.

Import Session.

Lemma endSession_delivers_nothing reason now s link :
  ~ In (EvMediaDelivered link) (endSession reason now s).2.
Proof.
  unfold endSession. destruct (isActive s); simpl; [| tauto].
  intros [H|[H|Hin]]; try discriminate.
  apply in_app_or in Hin as [Hin|Hin].
  { destruct (actionLoopTimerId s); simpl in Hin; [destruct Hin as [H|[]]; discriminate | done]. }
  apply in_app_or in Hin as [Hin|Hin].
  { destruct (sessionEndTimerId s); simpl in Hin; [destruct Hin as [H|[]]; discriminate | done]. }
  destruct Hin as [H|[]]. discriminate.
Qed.

Lemma clearIfSet_delivers_nothing h link : ~ In (EvMediaDelivered link) (clearIfSet h).
Proof. destruct h; simpl; [intros [H|[]]; discriminate | tauto]. Qed.

End CycleTheorems.

(** X12.  Whatever happens in a cycle, a media link that the cycle delivers
    (by editing the media message or by sending a new one) is in the posted
    set when the cycle is over; it is the link of the item the cycle
    selected together with a commentary, and that item is recorded as the
    last one sent. *)
Theorem delivered_link_is_recorded :
  forall env s link,
    In (Session.EvMediaDelivered link) (Session.executeNextActionCycle env s).2 ->
    link ∈ Session.postedMediaUrls (Session.executeNextActionCycle env s).1
    /\ exists m c,
         Session.mediaToSend (Session.selectNext env s) = Some m
         /\ Session.commentaryToSend (Session.selectNext env s) = Some c
         /\ Media.url m = link
         /\ Session.lastSentMediaInfo (Session.executeNextActionCycle env s).1 = Some m.
Proof.
  intros env s link. unfold Session.executeNextActionCycle.
  destruct (Session.isActive s) eqn:Ha; simpl; [| tauto].
  destruct (Media.truthy_opt (Session.dmChannelId s)); simpl; [| tauto].
  destruct (Session.dmFetched env); simpl.
  2:{ intros Hin. by apply endSession_delivers_nothing in Hin. }
  destruct (_ <=? _)%Z.
  { pose proof (endSession_delivers_nothing "Ran out of time" (Session.nowEnd env) s link)
      as Hno.
    destruct (Session.endSession "Ran out of time" (Session.nowEnd env) s) as [s1 ev].
    simpl in *. intros [H|Hin]; [discriminate | by apply Hno in Hin]. }
  destruct (selectNext_core env s) as [Hc Hr].
  assert (Ha' : Session.isActive (Session.sel_session (Session.selectNext env s)) = true).
  { unfold core in Hc. congruence. }
  destruct (deliver_effects env (Session.selectNext env s) Ha') as (_ & _ & _ & Hdel).
  destruct (Session.deliver env (Session.selectNext env s)) as [s1 ev]. simpl in *.
  intros Hin.
  apply in_app_or in Hin as [Hin|Hin]; [by apply clearIfSet_delivers_nothing in Hin |].
  apply in_app_or in Hin as [Hin|Hin]; [by apply requests_not_delivered in Hin |].
  by apply Hdel.
Qed.

(** A world that returns the three demo items and three commentaries, and
    in which no message exists yet. *)
Lemma delivered_link_is_recorded_witness :
  "http://x/1.png"
  ∈ Session.postedMediaUrls
      (Session.executeNextActionCycle (batch_env ["c1"; "c2"; "c3"]) demo_session).1.
Proof.
  apply (delivered_link_is_recorded (batch_env ["c1"; "c2"; "c3"]) demo_session).
  vm_compute. tauto.
Defined.



(** ** The candidate pool of a link-aggregation session *)

Section Pool.

Import Media Session.

Lemma selectFromPool_sound pool posted pick n : forall k m k',
  selectFromPool pool posted pick k n = (Some m, k') ->
  (url m ∉ posted)
  /\ (exists raw, raw ∈ pool /\ mapRedditPostToFetchedMedia raw = Some m)
  /\ k < k' <= k + n.
Proof.
  induction n as [|n IH]; intros k m k'; simpl; [discriminate |].
  destruct pool as [|p0 pool0] eqn:Epool; [discriminate |]. rewrite <- Epool in *.
  destruct (pool !! pick k) as [raw|] eqn:El; simpl.
  - destruct (mapRedditPostToFetchedMedia raw) as [m0|] eqn:Em.
    + destruct (decide (url m0 ∈ posted)).
      * intros H. apply IH in H as (H1 & H2 & H3). repeat split; try done; lia.
      * intros [= <- <-]. split; [done |]. split; [| lia].
        exists raw. split; [by eapply list_elem_of_lookup_2 | exact Em].
    + intros H. apply IH in H as (H1 & H2 & H3). repeat split; try done; lia.
  - intros H. apply IH in H as (H1 & H2 & H3). repeat split; try done; lia.
Qed.



End Pool.

Section RealRefill.

Import Media Session.

Lemma refillReal_candidate env s m :
  rf_fetchedItem (refillReal env s) = Some m ->
  (url m ∉ postedMediaUrls s)
  /\ rf_commentary (refillReal env s) = Some (singleCommentary env).
Proof.
  unfold refillReal.
  destruct (selectFromPool (redditPostsPool s) (postedMediaUrls s) (pick env) 0
              (length (redditPostsPool s) + 5)) as [first k1] eqn:E1.
  destruct first as [c0|].
  - apply selectFromPool_sound in E1 as (H1 & _ & _).
    destruct (firstEligible s) as [sub1|]; simpl.
    + destruct (fetchNextRedditPage sub1 s) as [[b s2] ev2]. simpl.
      intros [= <-]. by split.
    + intros [= <-]. by split.
  - destruct (firstEligible s) as [sub0|] eqn:Ee.
    + destruct (fetchNextRedditPage_core sub0 s) as [Hc _].
      destruct (fetchNextRedditPage sub0 s) as [[started s'] ev]. simpl in Hc.
      destruct started.
      * pose proof (fetchSettled_core sub0 (syncFetch env) s') as Hc2.
        assert (Hp : postedMediaUrls (fetchSettled sub0 (syncFetch env) s')
                     = postedMediaUrls s).
        { unfold core in Hc, Hc2. congruence. }
        destruct (selectFromPool (redditPostsPool (fetchSettled sub0 (syncFetch env) s'))
                    (postedMediaUrls (fetchSettled sub0 (syncFetch env) s'))
                    (pick env) k1 (length (redditPostsPool s) + 5))
          as [second k2] eqn:E2.
        simpl.
        assert (Hsecond : forall c, second = Some c -> url c ∉ postedMediaUrls s).
        { intros c ->. apply selectFromPool_sound in E2 as (H1 & _ & _).
          by rewrite Hp in H1. }
        destruct (firstEligible (fetchSettled sub0 (syncFetch env) s')) as [sub1|]; simpl.
        -- destruct (fetchNextRedditPage sub1 _) as [[b s2] ev2]. simpl.
           intros Hm. split; [by apply Hsecond | by rewrite Hm].
        -- intros Hm. split; [by apply Hsecond | by rewrite Hm].
      * simpl. destruct (firstEligible s') as [sub1|]; simpl; [| discriminate].
        destruct (fetchNextRedditPage sub1 s') as [[b s2] ev2]. discriminate.
    + simpl. rewrite Ee. discriminate.
Qed.

End RealRefill.

(** X13.  The random selection from the candidate pool never yields a link
    of the posted set: what it returns is one of the pool items, mapped to
    the delivery format, and it makes at least one and at most the allowed
    number of draws; on an empty pool it returns nothing without drawing.
    Hence the item a link-aggregation refill hands on is never one already
    posted in the session, and it always comes with a commentary. *)
Theorem pool_selection_is_fresh :
  (forall pool (posted : gset string) pick k n m k',
      Session.selectFromPool pool posted pick k n = (Some m, k') ->
      (Media.url m ∉ posted)
      /\ (exists raw, raw ∈ pool /\ Session.mapRedditPostToFetchedMedia raw = Some m)
      /\ k < k' <= k + n)
  /\ (forall (posted : gset string) pick k n,
        Session.selectFromPool [] posted pick k n = (None, k))
  /\ (forall env s m,
        Session.rf_fetchedItem (Session.refillReal env s) = Some m ->
        (Media.url m ∉ Session.postedMediaUrls s)
        /\ Session.rf_commentary (Session.refillReal env s)
           = Some (Session.singleCommentary env)).
Proof.
  split; [intros; by eapply selectFromPool_sound |].
  split; [intros posted pick k n; by destruct n |].
  intros env s m Hm. by apply refillReal_candidate.
Qed.

Definition pool2 : list Media.mediaItem :=
  [Media.mkItem "http://r/a.png"
     (Media.mkPost 1 (Some "http://r/a.png") (Some 10%Z) [] None None (Some "subA"));
   Media.mkItem "http://r/b.png"
     (Media.mkPost 2 (Some "http://r/b.png") (Some 10%Z) [] None None (Some "subA"))].

Definition posted_a : gset string := {["http://r/a.png"]}.

Lemma pool_selection_is_fresh_witness :
  exists m k',
    Session.selectFromPool pool2 posted_a (fun k => k) 0 7 = (Some m, k')
    /\ Media.url m = "http://r/b.png" /\ Media.url m ∉ posted_a.
Proof.
  assert (H : exists m, Session.selectFromPool pool2 posted_a (fun k => k) 0 7 = (Some m, 2)
                        /\ Media.url m = "http://r/b.png").
  { eexists. split; [vm_compute; reflexivity | reflexivity]. }
  destruct H as (m & H & Hu). exists m, 2. split; [exact H |]. split; [exact Hu |].
  exact (proj1 (proj1 pool_selection_is_fresh _ _ _ _ _ _ _ H)).
Defined.


(** ** Ending a session through the manager: src/sessions/SessionManager.js *)

Module ManagerEnd.

Import SessionManager.

(** How [client.shard.broadcastEval] settles: it rejects, or resolves to
    one value per shard asked ([None] for [null]). *)
Inductive broadcast :=
| BroadcastThrows
| BroadcastResults (results : list (option bool)).

(** The arguments of one [SessionManager.endSession] call together with
    what the outside world does to it. *)
Record endArgs := mkEndArgs {
  e_clientOk : bool;            (* client && client.shard *)
  e_userId : string;
  e_now : Z;                    (* Date.now() inside Session.endSession *)
  e_getThrows : bool;           (* redisClient.get *)
  e_delThrows : bool;           (* redisClient.del *)
  e_broadcast : broadcast
}.

Inductive answer :=
| Answer (b : bool)     (* the promise resolves to b *)
| Throws.               (* the promise rejects *)

(** [results.some(res => res === true)] *)
Definition confirmed (results : list (option bool)) : bool :=
  existsb (fun res => match res with Some true => true | _ => false end) results.

(** [getLocalSession] and [hasLocalSession] *)
Definition getLocalSession (userId : string) (p : proc) : option ref :=
  localActiveSessions p !! userId.

Definition hasLocalSession (userId : string) (p : proc) : bool :=
  bool_decide (is_Some (localActiveSessions p !! userId)).

(** [hasActiveSessionAnywhere]: [exists] answers 1 or 0; an error counts
    as no session. *)
Definition hasActiveSessionAnywhere (existsThrows : bool) (userId : string)
    (reg : registry) : bool :=
  if existsThrows then false else bool_decide (is_Some (reg !! userId)).

(** [endSession(client, userId)] run on process [p]. *)
Definition endSession (a : endArgs) (p : proc) (reg : registry)
  : proc * registry * answer * list Session.event :=
  if negb (e_clientOk a) then (p, reg, Answer false, [])
  else if e_getThrows a then (p, reg, Throws, [])
  else match reg !! e_userId a with
       | None => (p, reg, Answer false, [])
       | Some managingShardId =>
           if decide (managingShardId = shardId p) then
             match getLocalSession (e_userId a) p with
             | Some r =>
                 let '(p1, reg1, ev) :=
                   endObject r "Requested by Manager" (e_now a) (e_delThrows a) p reg in
                 (p1, reg1, Answer true, ev)
             | None =>
                 let '(p1, reg1) := deleteSession (e_userId a) (e_delThrows a) p reg in
                 (p1, reg1, Answer false, [])
             end
           else
             match e_broadcast a with
             | BroadcastResults results =>
                 if confirmed results then (p, reg, Answer true, [])
                 else
                   let '(p1, reg1) := deleteSession (e_userId a) (e_delThrows a) p reg in
                   (p1, reg1, Answer false, [])
             | BroadcastThrows =>
                 let '(p1, reg1) := deleteSession (e_userId a) (e_delThrows a) p reg in
                 (p1, reg1, Answer false, [])
             end
       end.

End ManagerEnd.

Section ManagerEndFacts.

Import SessionManager ManagerEnd.


Lemma deleteSession_registry u p (reg : gmap string Z) :
  (deleteSession u false p reg).2 !! u = None.
Proof. unfold deleteSession. simpl. apply lookup_delete_eq. Qed.

End ManagerEndFacts.


Definition shard0 : SessionManager.proc := SessionManager.mkProc 0 ∅ [].

Definition no_registrations : gmap string Z := ∅.

Definition start_args : SessionManager.callArgs :=
  SessionManager.mkArgs true "u" demo_plugin None "sid1" 1000 1000 false false false.


Definition end_args : ManagerEnd.endArgs :=
  ManagerEnd.mkEndArgs true "u" 61001 false false ManagerEnd.BroadcastThrows.

Definition started := SessionManager.createSession start_args shard0 no_registrations.


Ltac answer_cases :=
  split;
  [ intros ?; try congruence; try (eexists; reflexivity)
  | split;
    [ intros _ Hdel; intros; try congruence;
      try (rewrite Hdel; apply lookup_delete_eq); auto
    | intros; try congruence; try (split; reflexivity) ] ].

(** X17.  What the answer of the manager's [endSession] says.  It answers
    true only for a user the registry maps to some shard.  With Redis
    working, a false answer means that this call ended no Session object,
    caused no session effect, and that the registry holds no entry for the
    user afterwards: an entry that pointed to this shard without a local
    session, or to a shard that did not confirm, is removed. *)
Theorem manager_end_answer :
  forall e p (reg : gmap string Z) p' reg' ans ev,
    ManagerEnd.endSession e p reg = (p', reg', ans, ev) ->
    (ans = ManagerEnd.Answer true -> is_Some (reg !! ManagerEnd.e_userId e))
    /\ (ManagerEnd.e_getThrows e = false ->
        ManagerEnd.e_delThrows e = false ->
        ans = ManagerEnd.Answer false ->
        ManagerEnd.e_clientOk e = true ->
        reg' !! ManagerEnd.e_userId e = None)
    /\ (ans = ManagerEnd.Answer false ->
        SessionManager.objects p' = SessionManager.objects p /\ ev = []).
Proof.
  intros e p reg p' reg' ans ev.
  unfold ManagerEnd.endSession.
  destruct (ManagerEnd.e_clientOk e); simpl;
    [| intros [= <- <- <- <-]; answer_cases].
  destruct (ManagerEnd.e_getThrows e) eqn:Hget; simpl;
    [intros [= <- <- <- <-]; repeat split; discriminate |].
  destruct (reg !! ManagerEnd.e_userId e) as [managing|] eqn:Hreg; simpl;
    [| intros [= <- <- <- <-]; answer_cases].
  destruct (decide (managing = SessionManager.shardId p)) as [_|_].
  - destruct (ManagerEnd.getLocalSession (ManagerEnd.e_userId e) p) as [r|].
    + destruct (SessionManager.endObject r "Requested by Manager" (ManagerEnd.e_now e)
                  (ManagerEnd.e_delThrows e) p reg) as [[q1 r1] ev1].
      intros [= <- <- <- <-]. answer_cases.
    + intros [= <- <- <- <-]. answer_cases.
  - destruct (ManagerEnd.e_broadcast e) as [|results].
    + intros [= <- <- <- <-]. answer_cases.
    + destruct (ManagerEnd.confirmed results); intros [= <- <- <- <-]; answer_cases.
Qed.

Definition stale_registry : gmap string Z := {["u" := 0%Z]}.

Lemma manager_end_answer_witness :
  (ManagerEnd.endSession end_args shard0 stale_registry).1.2 = ManagerEnd.Answer false
  /\ (ManagerEnd.endSession end_args shard0 stale_registry).1.1.2 !! "u" = None.
Proof.
  split; [reflexivity |].
  exact (proj1 (proj2 (manager_end_answer end_args shard0 stale_registry _ _ _ _ eq_refl))
           eq_refl eq_refl eq_refl eq_refl).
Defined.

(** ** The pool of main models: src/llm/client.js *)

Module ModelPool.

(** [getNextMainModel]: the model handed out and the new value of
    [mainModelIndex]. *)
Definition getNextMainModel {A : Type} (mainModelInstances : list A)
    (mainModelIndex : nat) : option A * nat :=
  if (length mainModelInstances =? 0)%nat then (None, mainModelIndex)
  else (mainModelInstances !! mainModelIndex,
        (mainModelIndex + 1) mod length mainModelInstances).

(** [k] calls in a row. *)
Fixpoint calls {A : Type} (k : nat) (mainModelInstances : list A)
    (mainModelIndex : nat) : list (option A) * nat :=
  match k with
  | 0 => ([], mainModelIndex)
  | S k' =>
      let '(m, i1) := getNextMainModel mainModelInstances mainModelIndex in
      let '(ms, i2) := calls k' mainModelInstances i1 in
      (m :: ms, i2)
  end.

End ModelPool.

Section ModelPoolFacts.

Import ModelPool.
Context {A : Type}.

Lemma calls_closed_form (insts : list A) k : forall idx,
  idx < length insts ->
  calls k insts idx
  = (map (fun j => insts !! ((idx + j) mod length insts)) (seq 0 k),
     (idx + k) mod length insts).
Proof.
  induction k as [|k IH]; intros idx Hidx.
  - simpl. rewrite Nat.add_0_r. by rewrite Nat.mod_small.
  - cbn [calls]. unfold getNextMainModel.
    destruct (Nat.eqb_spec (length insts) 0) as [Hz|Hnz]; [lia |].
    rewrite IH by (apply Nat.mod_upper_bound; lia).
    cbn [seq map]. rewrite <- seq_shift, map_map.
    f_equal.
    + f_equal.
      * rewrite Nat.add_0_r. by rewrite Nat.mod_small.
      * apply map_ext. intros j.
        rewrite Nat.Div0.add_mod_idemp_l. do 2 f_equal. lia.
    + rewrite Nat.Div0.add_mod_idemp_l. f_equal. lia.
Qed.

End ModelPoolFacts.

(** X18.  The main models are handed out in rotation.  With the index
    inside the pool, the calls that follow return instance [i], [i+1], ...
    modulo the pool size: every call returns a model, the index stays
    inside the pool, and after as many calls as there are instances the
    index is back where it was. *)
Theorem main_models_round_robin :
  forall (A : Type) (insts : list A) idx k,
    idx < length insts ->
    ModelPool.calls k insts idx
    = (map (fun j => insts !! ((idx + j) mod length insts)) (seq 0 k),
       (idx + k) mod length insts)
    /\ Forall is_Some (ModelPool.calls k insts idx).1
    /\ (ModelPool.calls k insts idx).2 < length insts
    /\ (ModelPool.calls (length insts) insts idx).2 = idx.
Proof.
  intros A insts idx k Hidx.
  split; [by apply calls_closed_form |].
  rewrite !calls_closed_form by done. simpl.
  split.
  - apply Forall_forall. intros m Hm. apply list_elem_of_In, in_map_iff in Hm.
    destruct Hm as (j & <- & _).
    apply lookup_lt_is_Some_2, Nat.mod_upper_bound. lia.
  - split; [apply Nat.mod_upper_bound; lia |].
    replace (idx + length insts) with (idx + 1 * length insts) by lia.
    rewrite Nat.Div0.mod_add. by apply Nat.mod_small.
Qed.

Lemma main_models_round_robin_witness :
  ModelPool.calls 4 ["m0"; "m1"; "m2"]%string 1
  = ([Some "m1"; Some "m2"; Some "m0"; Some "m1"]%string, 2).
Proof.
  rewrite (proj1 (main_models_round_robin string ["m0"; "m1"; "m2"]%string 1 4
                    ltac:(simpl; lia))).
  reflexivity.
Defined.

(** ** First-page cache of the link-aggregation client:
    src/media/redditClient.js *)

Module RedditClient.

Import Media.

Definition CACHE_TTL : Z := 30 * 60 * 1000.

(** The [{posts, after}] object the client resolves to. *)
Record resultData (A : Type) := mkResult {
  posts : list A;
  after : option string
}.

Record cacheEntry (A : Type) := mkEntry {
  data : resultData A;
  timestamp : Z
}.

Arguments mkResult {A}.
Arguments posts {A}.
Arguments after {A}.
Arguments mkEntry {A}.
Arguments data {A}.
Arguments timestamp {A}.

(** What [axios.get] does.  [Listing] is a body with
    [data.data.children]; [Unexpected] a body without it; [NotFound] an
    error with status 404; [Failed] any other error, including an
    exception while the children are mapped. *)
Inductive response (A : Type) :=
| Listing (children : list A) (nextAfter : option string)
| Unexpected
| NotFound
| Failed.

Arguments Listing {A}.
Arguments Unexpected {A}.
Arguments NotFound {A}.
Arguments Failed {A}.

(** [`${subreddit}:${timeframe}:${after || 'start'}`] *)
Definition cacheKey (subreddit timeframe : string) (cursor : option string) : string :=
  (subreddit ++ ":" ++ timeframe ++ ":"
   ++ (if truthy_opt cursor then default EmptyString cursor else "start"))%string.

(** [getSubredditTopPosts]: the value it resolves to ([None] for [null]),
    the cache afterwards, and whether an HTTP request was made. *)
Definition getSubredditTopPosts {A : Type} (subreddit timeframe : string)
    (cursor : option string) (now : Z) (resp : response A)
    (subredditCache : gmap string (cacheEntry A))
  : option (resultData A) * gmap string (cacheEntry A) * bool :=
  let key := cacheKey subreddit timeframe cursor in
  let fresh :=
    if truthy_opt cursor then None
    else match subredditCache !! key with
         | Some e => if (now - timestamp e <? CACHE_TTL)%Z then Some (data e) else None
         | None => None
         end in
  match fresh with
  | Some d => (Some d, subredditCache, false)
  | None =>
      match resp with
      | Listing children nextAfter =>
          let resultData := mkResult children nextAfter in
          (Some resultData,
           if truthy_opt cursor then subredditCache
           else <[key := mkEntry resultData now]> subredditCache,
           true)
      | Unexpected => (Some (mkResult [] None), subredditCache, true)
      | NotFound =>
          (None,
           if truthy_opt cursor then subredditCache
           else <[key := mkEntry (mkResult [] None) now]> subredditCache,
           true)
      | Failed => (None, subredditCache, true)
      end
  end.

(** What a request leaves in the cache for the first page. *)
Definition stored {A : Type} (resp : response A) : option (resultData A) :=
  match resp with
  | Listing children nextAfter => Some (mkResult children nextAfter)
  | NotFound => Some (mkResult [] None)
  | Unexpected | Failed => None
  end.

End RedditClient.

(** X19.  The first page of a subreddit is served from the cache for
    thirty minutes.  When a first-page call made a request at time [t0]
    that was answered with a listing or with a 404, every first-page call
    for the same subreddit and timeframe at a time [t] with
    [t - t0 < 30 min] makes no request, leaves the cache alone and resolves
    to the listing of the first answer, whatever the network would answer
    now.  After a 404 that is an empty page, although the first call
    itself resolved to null.  Once thirty minutes have passed the next
    call makes a request again. *)
Theorem first_page_is_cached :
  forall (A : Type) sub tf c0 t0 (resp0 : RedditClient.response A) cache res cache1 d,
    Media.truthy_opt c0 = false ->
    RedditClient.getSubredditTopPosts sub tf c0 t0 resp0 cache = (res, cache1, true) ->
    RedditClient.stored resp0 = Some d ->
    (forall c t resp,
        Media.truthy_opt c = false ->
        (t - t0 < RedditClient.CACHE_TTL)%Z ->
        RedditClient.getSubredditTopPosts sub tf c t resp cache1 = (Some d, cache1, false))
    /\ (resp0 = RedditClient.NotFound ->
        res = None /\ d = RedditClient.mkResult [] None)
    /\ (forall c t resp,
        Media.truthy_opt c = false ->
        (RedditClient.CACHE_TTL <= t - t0)%Z ->
        (RedditClient.getSubredditTopPosts sub tf c t resp cache1).2 = true).
Proof.
  intros A sub tf c0 t0 resp0 cache res cache1 d Hc0 Hcall Hst.
  assert (Hkey : forall c, Media.truthy_opt c = false ->
                           RedditClient.cacheKey sub tf c = RedditClient.cacheKey sub tf c0).
  { intros c Hc. unfold RedditClient.cacheKey. by rewrite Hc, Hc0. }
  assert (Hentry : cache1 !! RedditClient.cacheKey sub tf c0
                   = Some (RedditClient.mkEntry d t0)
                   /\ (resp0 = RedditClient.NotFound ->
                       res = None /\ d = RedditClient.mkResult [] None)).
  { revert Hcall. unfold RedditClient.getSubredditTopPosts. rewrite Hc0.
    destruct (cache !! RedditClient.cacheKey sub tf c0) as [e|].
    - destruct (t0 - RedditClient.timestamp e <? RedditClient.CACHE_TTL)%Z;
        [discriminate |].
      destruct resp0; simpl in Hst; try discriminate;
        injection Hst as <-; intros [= <- <-];
        (split; [apply lookup_insert_eq | intros; try discriminate; by split]).
    - destruct resp0; simpl in Hst; try discriminate;
        injection Hst as <-; intros [= <- <-];
        (split; [apply lookup_insert_eq | intros; try discriminate; by split]). }
  destruct Hentry as [Hentry H404].
  split; [| split; [exact H404 |]].
  - intros c t resp Hc Ht. unfold RedditClient.getSubredditTopPosts.
    rewrite Hc, (Hkey c Hc), Hentry. simpl.
    destruct (Z.ltb_spec (t - t0) RedditClient.CACHE_TTL); [reflexivity | lia].
  - intros c t resp Hc Ht. unfold RedditClient.getSubredditTopPosts.
    rewrite Hc, (Hkey c Hc), Hentry. simpl.
    destruct (Z.ltb_spec (t - t0) RedditClient.CACHE_TTL); [lia |].
    by destruct resp.
Qed.

Definition empty_cache : gmap string (RedditClient.cacheEntry nat) := ∅.

Definition after_404 : gmap string (RedditClient.cacheEntry nat) :=
  (RedditClient.getSubredditTopPosts "s" "all" None 0 RedditClient.NotFound
     empty_cache).1.2.

Lemma first_page_is_cached_witness :
  (RedditClient.getSubredditTopPosts "s" "all" None 0 RedditClient.NotFound
     empty_cache).1.1 = None
  /\ RedditClient.getSubredditTopPosts "s" "all" None 1000
       (RedditClient.Listing [1] None) after_404
     = (Some (RedditClient.mkResult [] None), after_404, false).
Proof.
  split; [reflexivity |].
  exact (proj1 (first_page_is_cached nat "s" "all" None 0 RedditClient.NotFound
                  empty_cache None after_404 (RedditClient.mkResult [] None)
                  eq_refl eq_refl eq_refl)
           None 1000%Z (RedditClient.Listing [1] None) eq_refl eq_refl).
Defined.

(** X20.  A call with a cursor never uses the cache: it always makes a
    request and leaves the cache as it was, also when the cache holds an
    unexpired entry under its key.  For any call, an answer that is neither
    a listing nor a 404 leaves the cache as it was. *)
Theorem later_pages_bypass_cache :
  forall (A : Type) sub tf c t (resp : RedditClient.response A) cache,
    (Media.truthy_opt c = true ->
     (RedditClient.getSubredditTopPosts sub tf c t resp cache).2 = true
     /\ (RedditClient.getSubredditTopPosts sub tf c t resp cache).1.2 = cache)
    /\ (RedditClient.stored resp = None ->
        (RedditClient.getSubredditTopPosts sub tf c t resp cache).1.2 = cache).
Proof.
  intros A sub tf c t resp cache. unfold RedditClient.getSubredditTopPosts. split.
  - intros ->. by destruct resp.
  - intros Hst. destruct (Media.truthy_opt c).
    + by destruct resp.
    + destruct (cache !! RedditClient.cacheKey sub tf c) as [e|].
      * destruct (t - RedditClient.timestamp e <? RedditClient.CACHE_TTL)%Z;
          [reflexivity |].
        by destruct resp.
      * by destruct resp.
Qed.

Definition cursor_cache : gmap string (RedditClient.cacheEntry nat) :=
  {[ "s:all:t3_x" := RedditClient.mkEntry (RedditClient.mkResult [7] None) 0 ]}.

Lemma later_pages_bypass_cache_witness :
  (RedditClient.getSubredditTopPosts "s" "all" (Some "t3_x") 5
     (RedditClient.Listing [1] None) cursor_cache).2 = true
  /\ (RedditClient.getSubredditTopPosts "s" "all" (Some "t3_x") 5
        (RedditClient.Listing [1] None) cursor_cache).1.2 = cursor_cache.
Proof.
  exact (proj1 (later_pages_bypass_cache nat "s" "all" (Some "t3_x") 5%Z
                  (RedditClient.Listing [1] None) cursor_cache) eq_refl).
Defined.

(** ** Character plugins: src/plugins/pluginLoader.js *)

Module PluginLoader.

Import Media LlmClient.

(** The value [JSON.parse] yields for one plugin file, reduced to the
    attributes the loader reads; [None] is a missing attribute. *)
Record pluginData := mkPluginData {
  characterName : option json;
  rolePrompt : option json;
  characterType : option json;
  p_tags : option json;
  subreddits : option json;
  avatarTags : option json;
  aliases : option json
}.

(** JavaScript truthiness of an attribute. *)
Definition truthy_json (v : option json) : bool :=
  match v with
  | None | Some JNull => false
  | Some (JBool b) => b
  | Some (JNum n) => negb (n =? 0)%Z
  | Some (JStr s) => truthy s
  | Some (JArr _) | Some (JObj _) => true
  end.

Definition is_string (c : json) : bool := negb (not_a_string c).

(** [Array.isArray(x) && x.every(e => typeof e === 'string')] *)
Definition strings (v : option json) : bool :=
  match v with
  | Some (JArr elems) => forallb is_string elems
  | _ => false
  end.

(** [x && Array.isArray(x) && x.length > 0 && x.every(...)] *)
Definition nonempty_strings (v : option json) : bool :=
  match v with
  | Some (JArr (e :: elems)) => forallb is_string (e :: elems)
  | _ => false
  end.

(** [v === t] for a string literal [t] *)
Definition is_literal (t : string) (v : option json) : bool :=
  match v with
  | Some (JStr s) => String.eqb s t
  | _ => false
  end.

Record registry := mkRegistry {
  loadedPlugins : gmap string pluginData;
  aliasMap : gmap string string
}.

(** The [aliases.forEach] loop.  [alias.toLowerCase()] throws on an alias
    that is not a string; the exception leaves the loop and is caught by
    the handler of the file, after the plugin itself was stored. *)
Fixpoint addAliases (characterKey : string) (als : list json)
    (loaded : gmap string pluginData) (am : gmap string string)
  : gmap string string :=
  match als with
  | [] => am
  | JStr a :: rest =>
      let aliasKey := MediaFetcher.lowercase a in
      if bool_decide (is_Some (am !! aliasKey))
         || bool_decide (is_Some (loaded !! aliasKey))
      then addAliases characterKey rest loaded am
      else addAliases characterKey rest loaded (<[aliasKey := characterKey]> am)
  | _ :: _ => am
  end.

Definition with_avatarTags (p : pluginData) (v : option json) : pluginData :=
  mkPluginData (characterName p) (rolePrompt p) (characterType p) (p_tags p)
               (subreddits p) v (aliases p).

(** The body of the loop over the files for one [.json] file.  [file] is
    [None] when reading or parsing the file throws or yields [null]. *)
Definition loadFile (file : option pluginData) (st : registry) : registry :=
  match file with
  | None => st
  | Some pluginData =>
      if negb (truthy_json (characterName pluginData))
         || negb (truthy_json (rolePrompt pluginData)) then st
      else
        let fictional := is_literal "fictional" (characterType pluginData) in
        let real := is_literal "real" (characterType pluginData) in
        if negb fictional && negb real then st
        else if negb (if fictional then nonempty_strings (p_tags pluginData)
                      else nonempty_strings (subreddits pluginData)) then st
        else if truthy_json (avatarTags pluginData)
                && negb (strings (avatarTags pluginData)) then st
        else match characterName pluginData with
             | Some (JStr name) =>
                 let characterKey := MediaFetcher.lowercase name in
                 let stored :=
                   if truthy_json (avatarTags pluginData) then pluginData
                   else with_avatarTags pluginData (Some (JArr [])) in
                 let loaded := <[characterKey := stored]> (loadedPlugins st) in
                 mkRegistry loaded
                   (match aliases pluginData with
                    | Some (JArr als) => addAliases characterKey als loaded (aliasMap st)
                    | _ => aliasMap st
                    end)
             | _ => st     (* toLowerCase is not a function *)
             end
  end.

(** [loadPlugins] over the parse results of the [.json] files of the
    directory, in directory order; both maps are cleared first. *)
Definition loadPlugins (files : list (option pluginData)) : registry :=
  fold_left (fun st f => loadFile f st) files (mkRegistry ∅ ∅).

Definition getPlugin (nameOrAlias : string) (st : registry) : option pluginData :=
  let key := MediaFetcher.lowercase nameOrAlias in
  match loadedPlugins st !! key with
  | Some p => Some p
  | None =>
      match aliasMap st !! key with
      | Some characterKey =>
          if truthy characterKey then loadedPlugins st !! characterKey else None
      | None => None
      end
  end.

Definition characterExists (nameOrAlias : string) (st : registry) : bool :=
  bool_decide (is_Some (getPlugin nameOrAlias st)).

(** What the validation establishes for a stored plugin. *)
Definition valid (key : string) (p : pluginData) : Prop :=
  (exists name, characterName p = Some (JStr name) /\ truthy name = true
                /\ key = MediaFetcher.lowercase name)
  /\ truthy_json (rolePrompt p) = true
  /\ ((characterType p = Some (JStr "fictional") /\ nonempty_strings (p_tags p) = true)
      \/ (characterType p = Some (JStr "real") /\ nonempty_strings (subreddits p) = true))
  /\ strings (avatarTags p) = true.

End PluginLoader.

Section PluginLoaderFacts.

Import Media LlmClient PluginLoader.

Lemma lowercase_truthy s : truthy (MediaFetcher.lowercase s) = truthy s.
Proof. by destruct s. Qed.

Lemma is_literal_true t v : is_literal t v = true -> v = Some (JStr t).
Proof.
  destruct v as [[| | |s| |]|]; simpl; try discriminate.
  intros H. apply String.eqb_eq in H. by subst.
Qed.

(** The invariant of the loading loop. *)
Definition registry_ok (st : registry) : Prop :=
  (forall k p, loadedPlugins st !! k = Some p -> valid k p)
  /\ (forall k ck, aliasMap st !! k = Some ck ->
                   truthy ck = true /\ is_Some (loadedPlugins st !! ck)).

Lemma addAliases_ok ck als (loaded : gmap string pluginData) :
  truthy ck = true -> is_Some (loaded !! ck) ->
  forall am : gmap string string,
    (forall k c, am !! k = Some c -> truthy c = true /\ is_Some (loaded !! c)) ->
    forall k c, addAliases ck als loaded am !! k = Some c ->
                truthy c = true /\ is_Some (loaded !! c).
Proof.
  intros Hck Hin. induction als as [|a rest IH]; intros am Ham k c; simpl.
  - apply Ham.
  - destruct a; try apply Ham.
    destruct (bool_decide (is_Some (am !! MediaFetcher.lowercase s))
              || bool_decide (is_Some (loaded !! MediaFetcher.lowercase s))).
    + by apply IH.
    + apply IH. intros k' c'.
      destruct (decide (k' = MediaFetcher.lowercase s)) as [->|Hne].
      * rewrite lookup_insert_eq. intros [= <-]. by split.
      * rewrite lookup_insert_ne by done. apply Ham.
Qed.

Lemma loadFile_ok file st : registry_ok st -> registry_ok (loadFile file st).
Proof.
  intros [Hl Ha]. unfold loadFile.
  destruct file as [pd|]; [| by split].
  destruct (negb (truthy_json (characterName pd)) || negb (truthy_json (rolePrompt pd)))
    eqn:Hbase; [by split |].
  apply orb_false_elim in Hbase as [Hname Hrole].
  apply negb_false_iff in Hname, Hrole.
  destruct (negb (is_literal "fictional" (characterType pd))
            && negb (is_literal "real" (characterType pd)))
    eqn:Htype; [by split |].
  destruct (negb (if is_literal "fictional" (characterType pd)
                  then nonempty_strings (p_tags pd)
                  else nonempty_strings (subreddits pd)))
    eqn:Hsrc; [by split |].
  apply negb_false_iff in Hsrc.
  destruct (truthy_json (avatarTags pd) && negb (strings (avatarTags pd)))
    eqn:Hav; [by split |].
  destruct (characterName pd) as [[| | |name| |]|] eqn:Hn; try by split.
  simpl in Hname.
  set (stored := if truthy_json (avatarTags pd) then pd
                 else with_avatarTags pd (Some (JArr []))).
  assert (Hstored : valid (MediaFetcher.lowercase name) stored).
  { assert (Hkind : (characterType pd = Some (JStr "fictional")
                     /\ nonempty_strings (p_tags pd) = true)
                    \/ (characterType pd = Some (JStr "real")
                        /\ nonempty_strings (subreddits pd) = true)).
    { destruct (is_literal "fictional" (characterType pd)) eqn:Hf.
      - left. apply is_literal_true in Hf. by split.
      - right. simpl in Htype. apply negb_false_iff, is_literal_true in Htype.
        by split. }
    unfold stored. destruct (truthy_json (avatarTags pd)) eqn:Ht.
    - simpl in Hav. apply negb_false_iff in Hav.
      split; [exists name; by rewrite Hn |]. by repeat split.
    - split; [exists name; simpl; by rewrite Hn |]. by repeat split. }
  assert (Hl' : forall k p, <[MediaFetcher.lowercase name := stored]> (loadedPlugins st) !! k
                            = Some p -> valid k p).
  { intros k p. destruct (decide (k = MediaFetcher.lowercase name)) as [->|Hne].
    - rewrite lookup_insert_eq. by intros [= <-].
    - rewrite lookup_insert_ne by done. apply Hl. }
  assert (Ha' : forall k c, aliasMap st !! k = Some c ->
                  truthy c = true
                  /\ is_Some (<[MediaFetcher.lowercase name := stored]> (loadedPlugins st) !! c)).
  { intros k c Hk. destruct (Ha k c Hk) as [Ht Hs]. split; [exact Ht |].
    destruct (decide (c = MediaFetcher.lowercase name)) as [->|Hne].
    - rewrite lookup_insert_eq. by eexists.
    - by rewrite lookup_insert_ne. }
  split; simpl; [exact Hl' |].
  destruct (aliases pd) as [[| | | |als|]|]; try exact Ha'.
  apply addAliases_ok; [by rewrite lowercase_truthy | | exact Ha'].
  rewrite lookup_insert_eq. by eexists.
Qed.

Lemma loadPlugins_ok files : registry_ok (loadPlugins files).
Proof.
  unfold loadPlugins.
  assert (H : forall st, registry_ok st ->
                         registry_ok (fold_left (fun st f => loadFile f st) files st)).
  { induction files as [|f rest IH]; intros st Hst; simpl; [exact Hst |].
    apply IH. by apply loadFile_ok. }
  apply H. split; intros k x; simpl; by rewrite lookup_empty.
Qed.

End PluginLoaderFacts.

(** X21.  Every plugin the loader keeps has passed the validation: its
    name is a non-empty string whose lower-case form is the key it is
    stored under, its role prompt is present, its type is fictional with a
    non-empty list of tag strings or real with a non-empty list of
    subreddit strings, and its avatar tags are a list of strings (the empty
    list when the file gave none). *)
Theorem loaded_plugins_are_valid :
  forall files key p,
    PluginLoader.loadedPlugins (PluginLoader.loadPlugins files) !! key = Some p ->
    PluginLoader.valid key p.
Proof. intros files key p. apply (proj1 (loadPlugins_ok files)). Qed.

Definition alice_plugin : PluginLoader.pluginData :=
  PluginLoader.mkPluginData
    (Some (LlmClient.JStr "Alice")) (Some (LlmClient.JStr "You are Alice."))
    (Some (LlmClient.JStr "real")) None
    (Some (LlmClient.JArr [LlmClient.JStr "GoonforAlice"])) None
    (Some (LlmClient.JArr [LlmClient.JStr "Ali"; LlmClient.JNum 3; LlmClient.JStr "Al"])).

Definition plugin_files : list (option PluginLoader.pluginData) :=
  [None; Some alice_plugin].

Lemma loaded_plugins_are_valid_witness :
  exists p,
    PluginLoader.loadedPlugins (PluginLoader.loadPlugins plugin_files) !! "alice" = Some p
    /\ PluginLoader.valid "alice" p.
Proof.
  eexists. split; [vm_compute; reflexivity |].
  apply (loaded_plugins_are_valid plugin_files). vm_compute. reflexivity.
Defined.

(** X22.  Every alias the loader registers resolves: a lookup by a name
    whose lower-case form is a registered alias returns a plugin, and so
    does a lookup by the name of a stored plugin in any capitalisation. *)
Theorem aliases_resolve :
  forall files name,
    (is_Some (PluginLoader.aliasMap (PluginLoader.loadPlugins files)
                !! MediaFetcher.lowercase name)
     \/ is_Some (PluginLoader.loadedPlugins (PluginLoader.loadPlugins files)
                   !! MediaFetcher.lowercase name)) ->
    PluginLoader.characterExists name (PluginLoader.loadPlugins files) = true.
Proof.
  intros files name H. unfold PluginLoader.characterExists.
  apply bool_decide_eq_true_2. unfold PluginLoader.getPlugin.
  destruct (PluginLoader.loadedPlugins (PluginLoader.loadPlugins files)
              !! MediaFetcher.lowercase name) as [p|] eqn:Hl; [by eexists |].
  destruct H as [[ck Hck]|[p Hp]]; [| discriminate].
  rewrite Hck.
  destruct (proj2 (loadPlugins_ok files) _ _ Hck) as [-> Hs]. exact Hs.
Qed.

Lemma aliases_resolve_witness :
  PluginLoader.characterExists "ALI" (PluginLoader.loadPlugins plugin_files) = true
  /\ PluginLoader.characterExists "Al" (PluginLoader.loadPlugins plugin_files) = false.
Proof.
  split; [| vm_compute; reflexivity].
  apply (aliases_resolve plugin_files "ALI"). left. vm_compute. by eexists.
Defined.

(** ** The /set_usage command: src/commands/set_usage.js *)

Module SetUsage.

Definition ADMIN_PASSWORD : string := "Test".

Inductive reply :=
| IncorrectPassword
| Success            (* Successfully set / added / subtracted *)
| InvalidAction.

(** [execute]: the reply and the user documents afterwards.  [f] tells
    which Redis calls of the time operation throw; the operations of
    src/utils/userData.js catch them all. *)
Definition execute (f : UserData.faults) (action targetUser : string)
    (timeAmount : Z) (providedPassword : string)
    (db : gmap string UserData.storedData)
  : reply * gmap string UserData.storedData :=
  if negb (String.eqb providedPassword ADMIN_PASSWORD) then (IncorrectPassword, db)
  else if String.eqb action "set"
       then (Success, UserData.setUserTime f targetUser timeAmount db)
  else if String.eqb action "add"
       then (Success, UserData.addUserTime f targetUser timeAmount db)
  else if String.eqb action "subtract"
       then (Success, UserData.updateUserTime f targetUser timeAmount db)
  else (InvalidAction, db).

End SetUsage.

Section SetUsageFacts.

Import UserData.

Lemma view_after_read f u (db : gmap string storedData) :
  view u (getUserDataInternal f u db).2 = view u db.
Proof.
  unfold getUserDataInternal.
  destruct (get_throws f); [reflexivity |].
  destruct (db !! u) as [j|] eqn:E; [reflexivity |].
  destruct (init_set_throws f); [reflexivity |].
  unfold view, getUserDataInternal. simpl.
  rewrite lookup_insert_eq, E. by rewrite backfill_stringify.
Qed.

Lemma failed_save_keeps_view f u m (db : gmap string storedData) :
  save_throws f = true ->
  view u (apply_mutation f u m db) = view u db.
Proof.
  intros Hs.
  pose proof (view_after_read f u db) as Hr.
  destruct m; simpl; unfold updateUserTime, setUserTime, addUserTime;
    destruct (getUserDataInternal f u db) as [d db1]; simpl in *;
    unfold saveUserDataInternal; by rewrite Hs.
Qed.

End SetUsageFacts.

(** X23.  The time command changes nothing without the password or for an
    unknown action, and never touches another user's document.  With the
    password and one of the three actions it replies with success whatever
    Redis does: when the write fails, the balance a later read reports is
    the one from before, and the reply is success all the same. *)
Theorem set_usage_effects :
  forall f action u t pw (db : gmap string UserData.storedData),
    (pw <> SetUsage.ADMIN_PASSWORD ->
     SetUsage.execute f action u t pw db = (SetUsage.IncorrectPassword, db))
    /\ (action <> "set"%string -> action <> "add"%string -> action <> "subtract"%string ->
        (SetUsage.execute f action u t pw db).2 = db)
    /\ (forall v, u <> v -> (SetUsage.execute f action u t pw db).2 !! v = db !! v)
    /\ (pw = SetUsage.ADMIN_PASSWORD ->
        action = "set"%string \/ action = "add"%string \/ action = "subtract"%string ->
        (SetUsage.execute f action u t pw db).1 = SetUsage.Success
        /\ (UserData.save_throws f = true ->
            view u (SetUsage.execute f action u t pw db).2 = view u db)).
Proof.
  intros f action u t pw db. unfold SetUsage.execute.
  split; [| split; [| split]].
  - intros Hpw. apply String.eqb_neq in Hpw. by rewrite Hpw.
  - intros H1 H2 H3. apply String.eqb_neq in H1, H2, H3. rewrite H1, H2, H3.
    by destruct (negb (pw =? SetUsage.ADMIN_PASSWORD)%string).
  - intros v Hne.
    destruct (negb (pw =? SetUsage.ADMIN_PASSWORD)%string); [reflexivity |].
    destruct (action =? "set")%string;
      [exact (mutation_other f u v (UserData.SetTime t) db Hne) |].
    destruct (action =? "add")%string;
      [exact (mutation_other f u v (UserData.AddTime t) db Hne) |].
    destruct (action =? "subtract")%string;
      [exact (mutation_other f u v (UserData.Update t) db Hne) | reflexivity].
  - intros -> Hact. rewrite String.eqb_refl. simpl.
    destruct Hact as [-> | [-> | ->]]; simpl; (split; [reflexivity |]); intros Hs.
    + exact (failed_save_keeps_view f u (UserData.SetTime t) db Hs).
    + exact (failed_save_keeps_view f u (UserData.AddTime t) db Hs).
    + exact (failed_save_keeps_view f u (UserData.Update t) db Hs).
Qed.

Definition write_fails : UserData.faults := UserData.mkFaults false false true.

Definition no_users : gmap string UserData.storedData := ∅.

Lemma set_usage_effects_witness :
  (SetUsage.execute write_fails "set" "u" 50 "Test" no_users).1 = SetUsage.Success
  /\ view "u" (SetUsage.execute write_fails "set" "u" 50 "Test" no_users).2
     = view "u" no_users
  /\ SetUsage.execute write_fails "set" "u" 50 "test" no_users
     = (SetUsage.IncorrectPassword, no_users).
Proof.
  destruct (set_usage_effects write_fails "set" "u" 50%Z "Test" no_users)
    as (_ & _ & _ & H).
  destruct (H eq_refl (or_introl eq_refl)) as [H1 H2].
  split; [exact H1 |]. split; [exact (H2 eq_refl) |].
  apply (proj1 (set_usage_effects write_fails "set" "u" 50%Z "test" no_users)).
  discriminate.
Defined.

(** ** Migration of the user documents to Redis: the migration script *)

Module Migration.

Import UserData.




End Migration.

Section MigrationFacts.

Import UserData Migration.




End MigrationFacts.




